(** * Streaming-availability cache: a shallow embedding of
      [imdb_parser.py], [tmdb_api.py] and the cache-related handlers of
      [app.py], with the properties of the specification checked on it. *)

From stdpp Require Import gmap strings list fin_maps.
From Stdlib Require Import ZArith Ascii String.

Open Scope string_scope.
Open Scope list_scope.

(** ** Python strings

    A Python [str] is modelled by a Rocq [string] whose characters are the
    code points below 256.  [str.strip()] without arguments removes leading
    and trailing white space; [str.lower()] maps the upper-case letters to
    their lower-case forms. *)

Module PyStr.

(** White space in the sense of [str.isspace], on code points below 256. *)
Definition is_space (c : ascii) : bool :=
  let n := nat_of_ascii c in
  (((9 <=? n) && (n <=? 13)) || ((28 <=? n) && (n <=? 32))
   || (n =? 133) || (n =? 160))%nat.

Fixpoint lstrip (s : string) : string :=
  match s with
  | String c s' => if is_space c then lstrip s' else s
  | EmptyString => EmptyString
  end.

(** [rstrip] scans from the right: a white-space character is dropped when
    everything after it has been dropped. *)
Fixpoint rstrip (s : string) : string :=
  match s with
  | EmptyString => EmptyString
  | String c s' =>
      match rstrip s' with
      | EmptyString => if is_space c then EmptyString else String c EmptyString
      | r => String c r
      end
  end.

Definition strip (s : string) : string := rstrip (lstrip s).

Definition lower_char (c : ascii) : ascii :=
  let n := nat_of_ascii c in
  if (((65 <=? n) && (n <=? 90))
      || ((192 <=? n) && (n <=? 222) && negb (n =? 215)))%nat
  then ascii_of_nat (n + 32) else c.

Fixpoint lower (s : string) : string :=
  match s with
  | EmptyString => EmptyString
  | String c s' => String (lower_char c) (lower s')
  end.

Fixpoint startswith (p s : string) : bool :=
  match p, s with
  | EmptyString, _ => true
  | String a p', String b s' => if decide (a = b) then startswith p' s' else false
  | String _ _, EmptyString => false
  end.

(** [needle in hay] *)
Fixpoint contains (needle hay : string) : bool :=
  startswith needle hay ||
  match hay with
  | EmptyString => false
  | String _ hay' => contains needle hay'
  end.

(** [s.endswith(suffix)] *)
Fixpoint endswith (suffix s : string) : bool :=
  if decide (s = suffix) then true
  else match s with
       | EmptyString => false
       | String _ s' => endswith suffix s'
       end.

(** [s.split(sep)] for a one-character separator: the pieces between the
    separators, the empty pieces included. *)
Fixpoint split (sep : ascii) (s : string) : list string :=
  match s with
  | EmptyString => [EmptyString]
  | String c s' =>
      if decide (c = sep) then EmptyString :: split sep s'
      else match split sep s' with
           | piece :: rest => String c piece :: rest
           | [] => [String c EmptyString]
           end
  end.

(** Truth value of a string: the empty string is false. *)
Definition truthy (s : string) : bool :=
  match s with EmptyString => false | _ => true end.

(** Membership in a set literal of strings. *)
Definition in_set (s : string) (l : list string) : bool :=
  bool_decide (s ∈ l).

End PyStr.

(** ** [tmdb_api.imdb_type_to_tmdb_type] *)

Definition movie_types : list string := ["movie"; "short"; "video"; "tvmovie"].
Definition tv_types : list string :=
  ["tvseries"; "tvminiseries"; "tvepisode"; "tvspecial"].

Definition imdb_type_to_tmdb_type (imdb_type : string) : string :=
  let imdb_type := PyStr.strip (PyStr.lower imdb_type) in
  if PyStr.in_set imdb_type movie_types then "movie"
  else if PyStr.in_set imdb_type tv_types then "tv"
  else if PyStr.contains "tv" imdb_type then "tv"
  else "movie".

(** ** JSON values

    What [json.loads] returns and [json.dumps] accepts: objects are Python
    dicts with string keys, arrays are Python lists.  Numbers are the
    integers; the code reads no number out of a JSON value. *)

#[warnings="-register-all"]
Inductive json : Type :=
| JNull
| JBool (b : bool)
| JNum (n : Z)
| JStr (s : string)
| JList (l : list json)
| JDict (d : gmap string json).

(** Python's [None] is [JNull]; [d.get(k)] and [d.get(k, default)]. *)
Definition dict_get (d : gmap string json) (k : string) : json :=
  default JNull (d !! k).

Definition dict_get_default (d : gmap string json) (k : string) (dflt : json) : json :=
  default dflt (d !! k).

(** [v == s] for a string [s]: only an equal string is equal to a string. *)
Definition eq_str (v : json) (s : string) : bool :=
  match v with
  | JStr s' => bool_decide (s' = s)
  | _ => false
  end.

(** [v is None] *)
Definition is_none (v : json) : bool :=
  match v with JNull => true | _ => false end.

(** The exception that the embedded code can raise: a method call on
    [None]. *)
Inductive exn : Type :=
| AttributeError.

(** ** [imdb_parser.parse_imdb_csv]

    The file is read through [csv.DictReader].  [csv.reader] turns the text
    into rows of fields (the quoting rules are the library's); the first row
    gives the field names, empty rows are skipped, and each other row becomes
    a dict: [dict(zip(fieldnames, row))], then every field name beyond the
    row's length is set to [restval], which is [None].  Fields beyond the
    header go under the key [None], which the parser never reads. *)

Definition csv_row : Type := list string.
Definition csv_table : Type := list csv_row.

Fixpoint dict_of_row (fieldnames : list string) (row : csv_row)
    (d : gmap string (option string)) : gmap string (option string) :=
  match fieldnames, row with
  | k :: ks, v :: vs => dict_of_row ks vs (<[k := Some v]> d)
  | k :: ks, [] => dict_of_row ks [] (<[k := None]> d)
  | [], _ => d
  end.

Definition DictReader (t : csv_table) : list (gmap string (option string)) :=
  match t with
  | [] => []
  | fieldnames :: rows =>
      (λ row, dict_of_row fieldnames row ∅)
        <$> filter (λ row : csv_row, row ≠ []) rows
  end.

(** [row.get(key, "").strip()]: the default is used for an absent key only; a
    key set to [None] gives [None], which has no [strip]. *)
Definition get_strip (row : gmap string (option string)) (key : string)
    : exn + string :=
  match row !! key with
  | None => inr (PyStr.strip "")
  | Some (Some v) => inr (PyStr.strip v)
  | Some None => inl AttributeError
  end.

Definition type_map : list (string * string) :=
  [("movie", "Movie"); ("tvSeries", "TV Series");
   ("tvMiniSeries", "TV Mini-Series"); ("tvEpisode", "TV Episode");
   ("short", "Short"); ("video", "Video"); ("tvMovie", "TV Movie")].

Fixpoint assoc_get (l : list (string * string)) (k dflt : string) : string :=
  match l with
  | [] => dflt
  | (k', v) :: l' => if decide (k' = k) then v else assoc_get l' k dflt
  end.

Record film (rating_t : Type) : Type := Film {
  film_imdb_id : string;
  film_title : string;
  film_type : string;
  film_position : option Z;
  film_year : option Z;
  film_genres : list string;
  film_rating : option rating_t;
  film_runtime : option Z;
  film_directors : string;
}.
Arguments Film {rating_t}.
Arguments film_imdb_id {rating_t}.
Arguments film_title {rating_t}.
Arguments film_type {rating_t}.
Arguments film_position {rating_t}.
Arguments film_year {rating_t}.
Arguments film_genres {rating_t}.
Arguments film_rating {rating_t}.
Arguments film_runtime {rating_t}.
Arguments film_directors {rating_t}.

Section Parser.
(** Python's [int] and [float] applied to a string are parameters: [None]
    stands for [ValueError].  [pyfloat] is the type of float values. *)
Context {pyfloat : Type}.
Variable py_int : string → option Z.
Variable py_float : string → option pyfloat.

(** [try: x = conv(row.get(key, "").strip()) except: x = None] *)
Definition try_field {A} (conv : string → option A)
    (row : gmap string (option string)) (key : string) : option A :=
  match get_strip row key with
  | inr s => conv s
  | inl _ => None
  end.

Definition split_genres (genres_raw : string) : list string :=
  if PyStr.truthy genres_raw
  then PyStr.strip <$>
         filter (λ g, PyStr.truthy (PyStr.strip g) = true)
                (PyStr.split "," genres_raw)
  else [].

(** The body of the loop: [inr None] is [continue], [inr (Some f)] is the
    appended film, [inl e] an exception that leaves the function. *)
Definition parse_row (row : gmap string (option string))
    : exn + option (film pyfloat) :=
  match get_strip row "Const" with
  | inl e => inl e
  | inr imdb_id =>
      if negb (PyStr.truthy imdb_id) then inr None
      else
        match get_strip row "Title" with
        | inl e => inl e
        | inr title =>
            match get_strip row "Title Type" with
            | inl e => inl e
            | inr type_raw =>
                let type_clean := assoc_get type_map type_raw type_raw in
                let position := try_field py_int row "Position" in
                let year := try_field py_int row "Year" in
                let rating := try_field py_float row "IMDb Rating" in
                let runtime := try_field py_int row "Runtime (mins)" in
                match get_strip row "Genres" with
                | inl e => inl e
                | inr genres_raw =>
                    let genres := split_genres genres_raw in
                    match get_strip row "Directors" with
                    | inl e => inl e
                    | inr directors =>
                        inr (Some (Film imdb_id title type_clean position
                                     year genres rating runtime directors))
                    end
                end
            end
        end
  end.

Fixpoint parse_rows (rows : list (gmap string (option string)))
    (films : list (film pyfloat)) : exn + list (film pyfloat) :=
  match rows with
  | [] => inr films
  | row :: rows' =>
      match parse_row row with
      | inl e => inl e
      | inr None => parse_rows rows' films
      | inr (Some f) => parse_rows rows' (films ++ [f])
      end
  end.

Definition parse_imdb_csv (t : csv_table) : exn + list (film pyfloat) :=
  parse_rows (DictReader t) [].

End Parser.

(** ** The persistent state and the collaborators

    [cache.db] holds the table [film_cache], keyed by [imdb_id].  The column
    [providers_json] is kept decoded: [json.loads] of what [json.dumps] wrote
    is the value written, and [None] stands for a column that is [NULL] or the
    empty text.  The uploads folder holds the watchlists under their upload
    names and, next to each, its metadata file [<name>.json], a JSON object;
    the two are kept in separate maps.  [cache_dir] is the set of identifiers
    [i] with a file [cache/<i>.json], the per-film cache files that the SQL
    table replaced.  [calls] records the requests sent to the catalog
    service, oldest first. *)

Record fc_row : Type := FcRow {
  row_tmdb_id : option Z;
  row_providers_json : option (gmap string json);
}.

Inductive call : Type :=
| FindCall (imdb_id : string)
| WatchCall (tmdb_id : Z) (media_type : string) (region : string).

Record world : Type := World {
  film_cache : gmap string fc_row;
  uploads : gmap string csv_table;
  metas : gmap string (gmap string json);
  cache_dir : gset string;
  calls : list call;
}.

Definition set_film_cache (f : gmap string fc_row → gmap string fc_row) (w : world) : world :=
  World (f (film_cache w)) (uploads w) (metas w) (cache_dir w) (calls w).
Definition set_uploads (f : gmap string csv_table → gmap string csv_table) (w : world) : world :=
  World (film_cache w) (f (uploads w)) (metas w) (cache_dir w) (calls w).
Definition set_metas (f : gmap string (gmap string json) → gmap string (gmap string json))
    (w : world) : world :=
  World (film_cache w) (uploads w) (f (metas w)) (cache_dir w) (calls w).
Definition set_cache_dir (f : gset string → gset string) (w : world) : world :=
  World (film_cache w) (uploads w) (metas w) (f (cache_dir w)) (calls w).
Definition log_call (c : call) (w : world) : world :=
  World (film_cache w) (uploads w) (metas w) (cache_dir w) (calls w ++ [c]).

(** The dict that [sql_load] returns and [sql_save] receives.  [.get] cannot
    tell an absent ["tmdb_id"] from one set to [None], so both are [None];
    for ["providers"], [None] is the absent key. *)
Record cache_dict : Type := CacheDict {
  cd_tmdb_id : option Z;
  cd_providers : option (gmap string json);
}.

(** [{}] *)
Definition empty_dict : cache_dict := CacheDict None None.

(** The body of a [find] response as [get_tmdb_id] reads it: the ["id"]s of
    its ["movie_results"] and of its ["tv_results"], in order. *)
Record find_response : Type := FindResponse {
  movie_results : list Z;
  tv_results : list Z;
}.

(** What [get_providers_fresh] and [get_providers_cached] return: the dict
    with the keys ["tmdb_id"] and ["providers"]. *)
Record providers_result : Type := ProvidersResult {
  res_tmdb_id : option Z;
  res_providers : gmap string json;
}.

Module Sql.

Definition sql_load (imdb_id : string) (w : world) : option cache_dict :=
  match film_cache w !! imdb_id with
  | None => None
  | Some row =>
      let providers_block :=
        match row_providers_json row with
        | Some block => block
        | None => ∅
        end in
      Some (CacheDict (row_tmdb_id row) (Some providers_block))
  end.

Definition sql_save (imdb_id : string) (data : cache_dict) (w : world) : world :=
  let tmdb_id := cd_tmdb_id data in
  let providers_block := default ∅ (cd_providers data) in
  set_film_cache (insert imdb_id (FcRow tmdb_id (Some providers_block))) w.

Definition sql_delete (imdb_id : string) (w : world) : world :=
  set_film_cache (delete imdb_id) w.

End Sql.
Export Sql.

(** [tmdb_api._extract_entry]: the date and the names of a cache entry of
    either shape. *)
Definition _extract_entry (entry : json) : json * json :=
  match entry with
  | JNull => (JNull, JList [])
  | JList _ => (JNull, entry)
  | JDict d => (dict_get d "last_updated", dict_get_default d "names" (JList []))
  | _ => (JNull, JList [])
  end.

(** [{"last_updated": today_str, "names": names}] *)
Definition structured_entry (today_str : string) (names : list json) : json :=
  JDict (<["last_updated" := JStr today_str]> (<["names" := JList names]> ∅)).

Section Resolver.
(** The catalog service: the decoded body of the [find] request for an
    identifier, and of the [watch/providers] request for a media type and a
    catalog id.  The service answers every request; a request that fails
    raises out of the handler before anything is written, and is not
    modelled. *)
Variable tmdb_find : string → find_response.
Variable tmdb_watch : string → Z → json.

Definition get_tmdb_id (imdb_id : string) (w : world) : option Z * world :=
  let r := tmdb_find imdb_id in
  let w := log_call (FindCall imdb_id) w in
  match movie_results r with
  | id :: _ => (Some id, w)
  | [] =>
      match tv_results r with
      | id :: _ => (Some id, w)
      | [] => (None, w)
      end
  end.

(** [v[key]], [None] for [KeyError] or [TypeError]. *)
Definition getitem (v : json) (key : string) : option json :=
  match v with
  | JDict d => d !! key
  | _ => None
  end.

(** [v[k1][k2][k3]] *)
Definition getitem3 (v : json) (k1 k2 k3 : string) : option json :=
  match getitem v k1 with
  | Some v1 =>
      match getitem v1 k2 with
      | Some v2 => getitem v2 k3
      | None => None
      end
  | None => None
  end.

(** [[p["provider_name"] for p in providers]] under [try]: any exception
    gives the empty list.  Only a list can be iterated with every element
    subscripted by a string; iterating a non-empty dict or string yields
    strings, on which the subscript raises, and the empty ones give []. *)
Definition provider_names (providers : json) : list json :=
  match providers with
  | JList ps => default [] (mapM (λ p, getitem p "provider_name") ps)
  | _ => []
  end.

Definition get_watch_providers (tmdb_id : option Z) (media_type region : string)
    (w : world) : list json * world :=
  match tmdb_id with
  | None => ([], w)
  | Some id =>
      let r := tmdb_watch media_type id in
      let w := log_call (WatchCall id media_type region) w in
      match getitem3 r "results" region "flatrate" with
      | Some providers => (provider_names providers, w)
      | None => ([], w)
      end
  end.

(** *** [get_providers_cached] *)

Definition get_providers_cached (imdb_id : string) (regions : list string)
    (w : world) : providers_result * world :=
  match sql_load imdb_id w with
  | None =>
      (ProvidersResult None
         (foldl (λ out region, <[region := JList []]> out) ∅ regions), w)
  | Some cached =>
      let providers_block := default ∅ (cd_providers cached) in
      let out :=
        foldl (λ out region,
                 let entry := dict_get providers_block region in
                 let '(_, names) := _extract_entry entry in
                 <[region := names]> out) ∅ regions in
      (ProvidersResult (cd_tmdb_id cached) out, w)
  end.

(** *** [get_providers_fresh] *)

(** The first loop: is some requested region not dated today? *)
Fixpoint need_any_fetch (providers_block : gmap string json)
    (regions : list string) (today_str : string) : bool :=
  match regions with
  | [] => false
  | region :: regions' =>
      let entry := dict_get providers_block region in
      let '(last_updated, _) := _extract_entry entry in
      if negb (eq_str last_updated today_str) then true
      else need_any_fetch providers_block regions' today_str
  end.

(** The second loop, over the regions left, on [providers_block] and
    [results] as they stand. *)
Fixpoint fresh_loop (tmdb_id : option Z) (media_type today_str : string)
    (regions : list string)
    (providers_block results : gmap string json) (w : world)
    : gmap string json * gmap string json * world :=
  match regions with
  | [] => (providers_block, results, w)
  | region :: regions' =>
      let entry := dict_get providers_block region in
      let '(last_updated, names) := _extract_entry entry in
      if eq_str last_updated today_str then
        fresh_loop tmdb_id media_type today_str regions'
          providers_block (<[region := names]> results) w
      else
        let '(names, w) :=
          match tmdb_id with
          | None => ([], w)
          | Some _ => get_watch_providers tmdb_id media_type region w
          end in
        let providers_block :=
          <[region := structured_entry today_str names]> providers_block in
        fresh_loop tmdb_id media_type today_str regions'
          providers_block (<[region := JList names]> results) w
  end.

Definition get_providers_fresh (imdb_id imdb_type : string)
    (regions : list string) (today_str : string) (w : world)
    : providers_result * world :=
  let cached := default empty_dict (sql_load imdb_id w) in
  let tmdb_id := cd_tmdb_id cached in
  let providers_block := default ∅ (cd_providers cached) in
  let '(tmdb_id, cached, w) :=
    if need_any_fetch providers_block regions today_str
       && bool_decide (tmdb_id = None)
    then
      let '(tmdb_id, w) := get_tmdb_id imdb_id w in
      (tmdb_id, CacheDict tmdb_id (cd_providers cached), w)
    else (tmdb_id, cached, w) in
  let media_type := imdb_type_to_tmdb_type imdb_type in
  let '(providers_block, results, w) :=
    fresh_loop tmdb_id media_type today_str regions providers_block ∅ w in
  let cached := CacheDict (cd_tmdb_id cached) (Some providers_block) in
  let w := sql_save imdb_id cached w in
  (ProvidersResult tmdb_id results, w).

End Resolver.

(** ** [app.py]: watchlist metadata, deletion and processing *)

(** The form of a [/process] request: the fields it reads, [None] for a
    field that was not sent; the upload is a file name and a content. *)
Record request : Type := Request {
  form_existing_file : option string;
  file_upload : option (string * csv_table);
  form_regions : list string;
  form_selected_source : option string;
  form_refresh_mode : option string;
}.

Inductive response (film_t : Type) : Type :=
| Rendered (results : list (film_t * gmap string json))
           (regions : list string) (filename : string)
| BadRequest (message : string)
| Uncaught (e : exn).
Arguments Rendered {film_t}.
Arguments BadRequest {film_t}.
Arguments Uncaught {film_t}.

(** The first lines of [process]: what it reads off the form. *)
Definition selected_name (req : request) : string :=
  PyStr.strip (default "" (form_existing_file req)).

Definition upload_valid (req : request) : bool :=
  match file_upload req with
  | Some (filename, _) => negb (bool_decide (filename = ""))
  | None => false
  end.

Definition requested_regions (req : request) : list string :=
  match form_regions req with
  | [] => ["GB"]
  | regions => regions
  end.

Definition is_new_upload_selected (req : request) : bool :=
  upload_valid req
  && bool_decide (default "existing" (form_selected_source req) = "uploaded").

(** [meta["regions"]], a dict in every [meta] the handlers build or load. *)
Definition meta_regions (meta : gmap string json) : gmap string json :=
  match meta !! "regions" with
  | Some (JDict d) => d
  | _ => ∅
  end.

Definition load_watchlist_meta (csv_filename : string) (w : world)
    : gmap string json :=
  match metas w !! csv_filename with
  | None => <["filename" := JStr csv_filename]> (<["regions" := JDict ∅]> ∅)
  | Some data =>
      let data :=
        match data !! "regions" with
        | Some (JDict _) => data
        | _ => <["regions" := JDict ∅]> data
        end in
      match data !! "filename" with
      | Some _ => data
      | None => <["filename" := JStr csv_filename]> data
      end
  end.

Definition save_watchlist_meta (csv_filename : string) (meta : gmap string json)
    (w : world) : world :=
  let meta :=
    match meta !! "filename" with
    | Some _ => meta
    | None => <["filename" := JStr csv_filename]> meta
    end in
  set_metas (insert csv_filename meta) w.

(** [os.listdir] of the uploads folder, restricted to the watchlists: the
    metadata files end in [.json] and never pass the [.csv] filters. *)
Definition listdir (w : world) : list string := elements (dom (uploads w)).

(** The refresh decision of [process]: the regions to refresh and the regions
    to serve from the cache. *)
Definition refresh_decision (is_new_upload : bool) (refresh_mode : string)
    (existing_dates : gmap string json) (regions : list string)
    : gset string * gset string :=
  if is_new_upload then (list_to_set regions, ∅)
  else
    foldl (λ '(refresh_regions, cached_regions) r,
             let last := dict_get existing_dates r in
             if is_none last then (refresh_regions ∪ {[r]}, cached_regions)
             else if bool_decide (refresh_mode = "refresh")
                  then (refresh_regions ∪ {[r]}, cached_regions)
                  else (refresh_regions, cached_regions ∪ {[r]}))
          (∅, ∅) regions.

(** [for r in refresh_regions: meta["regions"][r] = today_str] *)
Definition stamp_regions (refresh_regions : list string) (today_str : string)
    (meta : gmap string json) : gmap string json :=
  <["regions" :=
      JDict (foldl (λ d r, <[r := JStr today_str]> d)
                   (meta_regions meta) refresh_regions)]> meta.

Section App.
Context {pyfloat : Type}.
Variable py_int : string → option Z.
Variable py_float : string → option pyfloat.
Variable tmdb_find : string → find_response.
Variable tmdb_watch : string → Z → json.

(** [[film["imdb_id"] for film in parse_imdb_csv(path)]] under [try]:
    [None] when the file is missing or the parser raises. *)
Definition try_imdb_ids (path : string) (w : world) : option (list string) :=
  match uploads w !! path with
  | None => None
  | Some t =>
      match parse_imdb_csv py_int py_float t with
      | inr films => Some (film_imdb_id <$> films)
      | inl _ => None
      end
  end.

(** The loop that [delete_file] and the overwrite branch of [process] both
    run over the other watchlists: those of [ids] that another [.csv] file
    of the folder lists; a watchlist that does not parse adds nothing. *)
Definition other_watchlists (filename : string) (w : world) : list string :=
  filter (λ f, PyStr.endswith ".csv" f = true ∧ f ≠ filename) (listdir w).

Definition ids_in_other_lists (filename : string) (ids : list string)
    (w : world) : gset string :=
  foldl (λ shared_ids wl,
           match try_imdb_ids wl w with
           | Some other_ids =>
               shared_ids ∪ (list_to_set ids ∩ list_to_set other_ids)
           | None => shared_ids
           end)
        ∅ (other_watchlists filename w).

(** *** [delete_file] *)
Definition delete_file (filename : string) (w : world) : world :=
  let imdb_ids := default [] (try_imdb_ids filename w) in
  let shared_ids := ids_in_other_lists filename imdb_ids w in
  let w := set_uploads (delete filename) w in
  let w := set_metas (delete filename) w in
  foldl (λ w imdb_id,
           if bool_decide (imdb_id ∈ shared_ids) then w
           else sql_delete imdb_id w)
        w imdb_ids.

(** *** [process] *)

(** The loop over the films. *)
Fixpoint build_results (films : list (film pyfloat)) (regions : list string)
    (refresh_regions cached_regions : gset string) (today_str : string)
    (w : world) : list (film pyfloat * gmap string json) * world :=
  match films with
  | [] => ([], w)
  | film :: films' =>
      let imdb_id := film_imdb_id film in
      let imdb_type := film_type film in
      let providers : gmap string json := ∅ in
      let '(providers, w) :=
        if bool_decide (refresh_regions ≠ ∅) then
          let '(fresh, w) :=
            get_providers_fresh tmdb_find tmdb_watch imdb_id imdb_type
              (elements refresh_regions) today_str w in
          (res_providers fresh ∪ providers, w)
        else (providers, w) in
      let '(providers, w) :=
        if bool_decide (cached_regions ≠ ∅) then
          let '(cached, w) :=
            get_providers_cached imdb_id (elements cached_regions) w in
          (res_providers cached ∪ providers, w)
        else (providers, w) in
      let providers :=
        foldl (λ providers r,
                 match providers !! r with
                 | Some _ => providers
                 | None => <[r := JList []]> providers
                 end) providers regions in
      let '(results, w) :=
        build_results films' regions refresh_regions cached_regions today_str w in
      ((film, providers) :: results, w)
  end.

(** Step 5 of the overwrite branch: the per-film cache file of every old
    identifier that is neither in the new list nor in another list is
    removed, if there is one. *)
Definition remove_old_cache_files (old_imdb_ids : list string)
    (new_ids ids_in_other : gset string) (w : world) : world :=
  foldl (λ w imdb_id,
           if bool_decide (imdb_id ∈ new_ids) then w
           else if bool_decide (imdb_id ∈ ids_in_other) then w
           else if bool_decide (imdb_id ∈ cache_dir w)
                then set_cache_dir (λ d, d ∖ {[imdb_id]}) w
                else w)
        w old_imdb_ids.

(** What the two branches of [process] hand to the rest of the handler:
    the file name, its films and its metadata, or a response sent early. *)
Definition chosen : Type :=
  response (film pyfloat) + string * list (film pyfloat) * gmap string json.

(** The branch of a newly uploaded file, an overwrite when a file of that
    name exists. *)
Definition process_upload (csv_filename : string) (content : csv_table)
    (w : world) : chosen * world :=
  let '(old_imdb_ids, ids_in_other) :=
    match uploads w !! csv_filename with
    | Some _ =>
        let old_imdb_ids := default [] (try_imdb_ids csv_filename w) in
        (old_imdb_ids, ids_in_other_lists csv_filename old_imdb_ids w)
    | None => ([], ∅)
    end in
  let w := set_uploads (insert csv_filename content) w in
  match parse_imdb_csv py_int py_float content with
  | inl e => (inl (Uncaught e), w)
  | inr films =>
      let new_ids : gset string := list_to_set (film_imdb_id <$> films) in
      let w := remove_old_cache_files old_imdb_ids new_ids ids_in_other w in
      let meta : gmap string json :=
        <["filename" := JStr csv_filename]> (<["regions" := JDict ∅]> ∅) in
      (inr (csv_filename, films, meta), w)
  end.

(** The branch of a previously uploaded file; the upload, if any, is not
    saved. *)
Definition process_existing (selected_name : string) (w : world)
    : chosen * world :=
  match uploads w !! selected_name with
  | None => (inl (BadRequest "Selected file not found."), w)
  | Some t =>
      match parse_imdb_csv py_int py_float t with
      | inl e => (inl (Uncaught e), w)
      | inr films =>
          (inr (selected_name, films, load_watchlist_meta selected_name w), w)
      end
  end.

Definition process (today_str : string) (req : request) (w : world)
    : response (film pyfloat) * world :=
  let selected_name := selected_name req in
  let regions := requested_regions req in
  if negb (PyStr.truthy selected_name) && negb (upload_valid req)
  then (BadRequest "Please upload a file or choose an existing one.", w)
  else
    let branch :=
      match file_upload req with
      | Some (csv_filename, content) =>
          if is_new_upload_selected req
          then process_upload csv_filename content w
          else process_existing selected_name w
      | None => process_existing selected_name w
      end in
    match branch with
    | (inl early, w) => (early, w)
    | (inr (csv_filename, films, meta), w) =>
        let refresh_mode := default "auto" (form_refresh_mode req) in
        let existing_dates := meta_regions meta in
        let '(refresh_regions, cached_regions) :=
          refresh_decision (is_new_upload_selected req) refresh_mode
            existing_dates regions in
        let '(results, w) :=
          build_results films regions refresh_regions cached_regions today_str w in
        let w :=
          if bool_decide (refresh_regions ≠ ∅) then
            save_watchlist_meta csv_filename
              (stamp_regions (elements refresh_regions) today_str meta) w
          else w in
        (Rendered results regions csv_filename, w)
    end.

End App.

(** * Vocabulary of the properties *)

(** The entry the store holds for an identifier and a region, if any. *)
Definition cached_entry (imdb_id region : string) (w : world) : option json :=
  match sql_load imdb_id w with
  | Some cached => default ∅ (cd_providers cached) !! region
  | None => None
  end.

(** [last_updated == today_str] for the entry's date. *)
Definition fresh_on (today_str : string) (entry : json) : bool :=
  eq_str (_extract_entry entry).1 today_str.

(** The state after more requests were sent, all else equal. *)
Definition add_calls (new : list call) (w : world) : world :=
  World (film_cache w) (uploads w) (metas w) (cache_dir w) (calls w ++ new).

(** The region map that [get_providers_fresh] starts from. *)
Definition stored_block (imdb_id : string) (w : world) : gmap string json :=
  default ∅ (cd_providers (default empty_dict (sql_load imdb_id w))).

(** The recorded date of a region: a value other than [None] under the
    region's key. *)
Definition recorded_date (existing_dates : gmap string json) (r : string) : bool :=
  negb (is_none (dict_get existing_dates r)).

(** The text columns, read outside any [try]. *)
Definition text_keys : list string :=
  ["Const"; "Title"; "Title Type"; "Genres"; "Directors"].

(** A row that has a value, possibly empty, in every text column that the
    header names. *)
Definition complete_row (row : gmap string (option string)) : Prop :=
  ∀ key, key ∈ text_keys → row !! key ≠ Some None.

(** [row.get(key, "").strip()] on such a row. *)
Definition field (row : gmap string (option string)) (key : string) : string :=
  match row !! key with
  | Some (Some v) => PyStr.strip v
  | _ => PyStr.strip ""
  end.

Section RowEntry.
Context {pyfloat : Type}.
Variable py_int : string → option Z.
Variable py_float : string → option pyfloat.

(** The entry of a complete row: none when the identifier is blank or
    missing. *)
Definition film_of_row (row : gmap string (option string))
    : option (film pyfloat) :=
  if PyStr.truthy (field row "Const") then
    Some (Film (field row "Const") (field row "Title")
            (assoc_get type_map (field row "Title Type") (field row "Title Type"))
            (try_field py_int row "Position") (try_field py_int row "Year")
            (split_genres (field row "Genres"))
            (try_field py_float row "IMDb Rating")
            (try_field py_int row "Runtime (mins)")
            (field row "Directors"))
  else None.

End RowEntry.

(** Two watchlists, the second stored under an upper-case extension, and the
    records of their films. *)
Definition two_lists_world : world :=
  World (<["tt0111161" := FcRow (Some 278%Z) (Some ∅)]>
           (<["tt0068646" := FcRow (Some 238%Z) (Some ∅)]> ∅))
        (<["A.csv" := [["Const"]; ["tt0111161"]]]>
           (<["B.CSV" := [["Const"]; ["tt0111161"]; ["tt0068646"]]]> ∅))
        ∅ ∅ [].

(** One watchlist with one film, its record, and its per-film cache file. *)
Definition one_list_world : world :=
  World (<["tt0111161" := FcRow (Some 278%Z) (Some ∅)]> ∅)
        (<["w.csv" := [["Const"]; ["tt0111161"]]]> ∅)
        ∅ {["tt0111161"]} [].

(** The upload of another film under the name of that watchlist. *)
Definition overwrite_request : request :=
  Request None (Some ("w.csv", [["Const"]; ["tt0068646"]])) ["GB"]
          (Some "uploaded") None.

(** A catalog service for worked runs: every identifier resolves to the
    movie 278, which two providers stream in the US and none elsewhere. *)
Definition sample_find (imdb_id : string) : find_response :=
  FindResponse [278%Z] [].

Definition sample_watch (media_type : string) (tmdb_id : Z) : json :=
  JDict {["results" :=
    JDict {["US" :=
      JDict {["flatrate" :=
        JList [JDict {["provider_name" := JStr "Netflix"]};
               JDict {["provider_name" := JStr "MUBI"]}]]}]}]}.

(** [int] on the strings of decimal digits, and a [float] that accepts
    nothing; the worked runs read no number. *)
Fixpoint decimal_digits (s : string) (acc : Z) : option Z :=
  match s with
  | EmptyString => Some acc
  | String c s' =>
      let n := nat_of_ascii c in
      if ((48 <=? n) && (n <=? 57))%nat
      then decimal_digits s' (10 * acc + Z.of_nat (n - 48))%Z
      else None
  end.

Definition sample_int (s : string) : option Z :=
  match s with
  | EmptyString => None
  | _ => decimal_digits s 0%Z
  end.

Definition sample_float (s : string) : option Z := None.

(** The scenario of the specification: on 2025-01-12 the store holds, for
    [tt0111161], a GB entry dated that day and a FR entry of the old shape;
    the watchlist [w.csv] lists that film and its metadata records a date
    for GB only. *)
Definition scenario_today : string := "2025-01-12".

Definition scenario_world : world :=
  World (<["tt0111161" :=
            FcRow (Some 278%Z)
                  (Some (<["GB" := structured_entry scenario_today [JStr "Netflix"]]>
                           (<["FR" := JList [JStr "Canal+"]]> ∅)))]> ∅)
        (<["w.csv" := [["Const"; "Title"; "Title Type"];
                       ["tt0111161"; "The Shawshank Redemption"; "movie"]]]> ∅)
        (<["w.csv" := <["filename" := JStr "w.csv"]>
                        (<["regions" := JDict (<["GB" := JStr "2025-01-10"]> ∅)]> ∅)]> ∅)
        ∅ [].

Definition scenario_request : request :=
  Request (Some "w.csv") None ["GB"; "US"] None None.

(** * Properties *)

(** ** Worked examples *)

Example classify_examples :
  imdb_type_to_tmdb_type "tvMiniSeries" = "tv"
  ∧ imdb_type_to_tmdb_type "short" = "movie"
  ∧ imdb_type_to_tmdb_type " TV Special " = "tv"
  ∧ imdb_type_to_tmdb_type "tvMovie" = "movie"
  ∧ imdb_type_to_tmdb_type "podcastSeries" = "movie"
  ∧ imdb_type_to_tmdb_type "tvShort" = "tv".
Proof. vm_compute. repeat split. Qed.

Example strip_split_examples :
  PyStr.strip "  tt0111161 " = "tt0111161"
  ∧ PyStr.strip "   " = ""
  ∧ PyStr.split "," "Drama, Crime,,Sci-Fi" = ["Drama"; " Crime"; ""; "Sci-Fi"]
  ∧ PyStr.split "," "" = [""]
  ∧ PyStr.endswith ".csv" "B.CSV" = false
  ∧ PyStr.endswith ".csv" "b.csv" = true.
Proof. vm_compute. repeat split. Qed.

(** ** Strings *)

Lemma startswith_spec p s :
  PyStr.startswith p s = true ↔ ∃ post, s = p +:+ post.
Proof.
  revert s. induction p as [|a p IH]; intros s; simpl.
  - split; [intros _; by exists s | done].
  - destruct s as [|b s]; simpl.
    + split; [done | intros [post Hpost]; discriminate].
    + destruct (decide (a = b)) as [->|Hne].
      * rewrite IH. split; intros [post Hpost]; exists post.
        -- by rewrite Hpost.
        -- by injection Hpost.
      * split; [done | intros [post Hpost]; injection Hpost; congruence].
Qed.

(** [contains] is the substring test. *)
Lemma contains_spec needle hay :
  PyStr.contains needle hay = true ↔ ∃ pre post, hay = pre +:+ needle +:+ post.
Proof.
  induction hay as [|c hay IH].
  - simpl. rewrite orb_false_r, startswith_spec. split.
    + intros [post Hpost]. by exists "", post.
    + intros (pre & post & Heq). destruct pre; [by exists post | discriminate].
  - cbn [PyStr.contains]. rewrite orb_true_iff, startswith_spec, IH. split.
    + intros [[post Hpost] | (pre & post & Hpost)].
      * by exists "", post.
      * exists (String c pre), post. simpl. by rewrite Hpost.
    + intros (pre & post & Heq). destruct pre as [|c' pre].
      * left. by exists post.
      * right. injection Heq as _ Heq. by exists pre, post.
Qed.

Lemma in_set_true s l : PyStr.in_set s l = true ↔ s ∈ l.
Proof. unfold PyStr.in_set. by rewrite bool_decide_eq_true. Qed.

Lemma in_set_false s l : PyStr.in_set s l = false ↔ s ∉ l.
Proof. unfold PyStr.in_set. by rewrite bool_decide_eq_false. Qed.

(** ** The media-kind classifier *)

Lemma tv_types_contain_tv k : k ∈ tv_types → PyStr.contains "tv" k = true.
Proof.
  unfold tv_types. rewrite !elem_of_cons, elem_of_nil.
  intros [->|[->|[->|[->|[]]]]]; reflexivity.
Qed.

(** C6, as stated, fails: ["tvMovie"] contains ["tv"] after lowercasing and
    trimming, and is classified as ["movie"], because the classifier looks
    the kind up in its table of movie kinds first. *)
Lemma tvmovie_is_movie :
  ¬ (∀ imdb_type,
       PyStr.contains "tv" (PyStr.strip (PyStr.lower imdb_type)) = true →
       imdb_type_to_tmdb_type imdb_type = "tv").
Proof.
  intros H. specialize (H "tvMovie" eq_refl). vm_compute in H. discriminate.
Qed.

(** C6, amended: every kind string is classified as ["movie"] or ["tv"]; a
    kind whose lowercased, trimmed form is one of [movie], [short], [video],
    [tvmovie] is a ["movie"]; any other kind whose lowercased, trimmed form
    contains ["tv"] is a ["tv"]; every kind left is a ["movie"].  In
    particular ["tvMiniSeries"] is a ["tv"] and ["short"] a ["movie"]. *)
Theorem imdb_type_to_tmdb_type_classes imdb_type :
  let kind := PyStr.strip (PyStr.lower imdb_type) in
  (imdb_type_to_tmdb_type imdb_type = "movie"
   ∨ imdb_type_to_tmdb_type imdb_type = "tv")
  ∧ (kind ∈ movie_types → imdb_type_to_tmdb_type imdb_type = "movie")
  ∧ (kind ∉ movie_types → PyStr.contains "tv" kind = true →
     imdb_type_to_tmdb_type imdb_type = "tv")
  ∧ (kind ∉ movie_types → PyStr.contains "tv" kind = false →
     imdb_type_to_tmdb_type imdb_type = "movie")
  ∧ imdb_type_to_tmdb_type "tvMiniSeries" = "tv"
  ∧ imdb_type_to_tmdb_type "short" = "movie".
Proof.
  intros kind. unfold imdb_type_to_tmdb_type. fold kind.
  destruct (PyStr.in_set kind movie_types) eqn:Hmovie.
  - apply in_set_true in Hmovie. repeat split; auto; intros; done.
  - apply in_set_false in Hmovie.
    destruct (PyStr.in_set kind tv_types) eqn:Htv.
    + apply in_set_true, tv_types_contain_tv in Htv.
      repeat split; auto; intros; congruence.
    + destruct (PyStr.contains "tv" kind) eqn:Hsub;
        repeat split; auto; intros; congruence.
Qed.

Lemma imdb_type_to_tmdb_type_classes_witness :
  imdb_type_to_tmdb_type "tvMovie" = "movie"
  ∧ imdb_type_to_tmdb_type " TV Short" = "tv"
  ∧ imdb_type_to_tmdb_type "podcastEpisode" = "movie".
Proof.
  split; [|split].
  - destruct (imdb_type_to_tmdb_type_classes "tvMovie") as (_ & H & _).
    apply H. apply (bool_decide_unpack _). vm_compute. exact I.
  - destruct (imdb_type_to_tmdb_type_classes " TV Short") as (_ & _ & H & _).
    apply H; [| reflexivity].
    apply (bool_decide_eq_false_1 _). vm_compute. reflexivity.
  - destruct (imdb_type_to_tmdb_type_classes "podcastEpisode") as (_ & _ & _ & H & _).
    apply H; [| reflexivity].
    apply (bool_decide_eq_false_1 _). vm_compute. reflexivity.
Defined.

(** ** The cache store *)


Lemma bool_decide_elem_of_cons_ne (r region : string) (regions : list string) :
  r ≠ region →
  bool_decide (region ∈ r :: regions) = bool_decide (region ∈ regions).
Proof.
  intros Hne. apply bool_decide_ext. rewrite elem_of_cons.
  split; [intros [->|]; done | by right].
Qed.

(** A loop that sets [out[region]] to a value that depends on the region
    only: what it leaves under each key. *)
Lemma foldl_insert_lookup {A} (step : gmap string A → string → gmap string A)
    (f : string → A) (regions : list string) (out : gmap string A) (r : string) :
  (∀ out region, step out region = <[region := f region]> out) →
  foldl step out regions !! r
  = if bool_decide (r ∈ regions) then Some (f r) else out !! r.
Proof.
  intros Hstep. revert out.
  induction regions as [|region regions IH]; intros out; simpl.
  - done.
  - rewrite IH, Hstep. case_bool_decide as Hin.
    + rewrite bool_decide_eq_true_2 by (by right). done.
    + destruct (decide (region = r)) as [->|Hne].
      * rewrite bool_decide_eq_true_2 by (by left). by rewrite lookup_insert_eq.
      * rewrite lookup_insert_ne by done.
        rewrite bool_decide_elem_of_cons_ne by done.
        by rewrite bool_decide_eq_false_2.
Qed.


(** Saving one identifier leaves the records of the others as they were. *)
Lemma sql_save_load_other (imdb_id other : string) (data : cache_dict) (w : world) :
  other ≠ imdb_id →
  sql_load other (sql_save imdb_id data w) = sql_load other w.
Proof.
  intros Hne. unfold sql_load, sql_save. simpl.
  by rewrite lookup_insert_ne.
Qed.

(** C5: for an identifier that the store does not hold,
    [get_providers_cached] returns no internal id and the empty list for
    every requested region; whatever the store holds, a requested region
    without a cache entry gets the empty list; and no request is sent. *)
Theorem get_providers_cached_defaults (imdb_id : string)
    (regions : list string) (w : world) :
  let run := get_providers_cached imdb_id regions w in
  (film_cache w !! imdb_id = None →
     res_tmdb_id run.1 = None
     ∧ ∀ region, res_providers run.1 !! region
                 = if bool_decide (region ∈ regions) then Some (JList []) else None)
  ∧ (∀ region, region ∈ regions → cached_entry imdb_id region w = None →
       res_providers run.1 !! region = Some (JList []))
  ∧ calls run.2 = calls w.
Proof.
  intros run. unfold run, get_providers_cached, cached_entry.
  destruct (sql_load imdb_id w) as [cached|] eqn:Hload; simpl.
  - split; [|split; [|done]].
    + intros Hnone. unfold sql_load in Hload. by rewrite Hnone in Hload.
    + intros region Hin Hentry.
      rewrite (foldl_insert_lookup _
                 (λ region, (_extract_entry
                    (dict_get (default ∅ (cd_providers cached)) region)).2)).
      * rewrite bool_decide_eq_true_2 by done.
        unfold dict_get. by rewrite Hentry.
      * intros out r. by destruct (_extract_entry _).
  - split; [|split; [|done]].
    + intros _. split; [done|]. intros region.
      by rewrite (foldl_insert_lookup _ (λ _, JList [])).
    + intros region Hin _.
      rewrite (foldl_insert_lookup _ (λ _, JList [])) by done.
      by rewrite bool_decide_eq_true_2.
Qed.

(** C10: [get_providers_cached] leaves the whole state as it found it, the
    cache store with every record and every entry of either shape. *)
Theorem get_providers_cached_reads_only (imdb_id : string)
    (regions : list string) (w : world) :
  (get_providers_cached imdb_id regions w).2 = w
  ∧ film_cache (get_providers_cached imdb_id regions w).2 = film_cache w
  ∧ ∀ other, sql_load other (get_providers_cached imdb_id regions w).2
             = sql_load other w.
Proof.
  assert ((get_providers_cached imdb_id regions w).2 = w) as ->; [|done].
  unfold get_providers_cached. by destruct (sql_load imdb_id w).
Qed.


(** ** The resolver *)


Lemma add_calls_nil w : add_calls [] w = w.
Proof. destruct w. unfold add_calls. simpl. by rewrite app_nil_r. Qed.

Lemma add_calls_app new1 new2 w :
  add_calls new2 (add_calls new1 w) = add_calls (new1 ++ new2) w.
Proof. unfold add_calls. simpl. by rewrite app_assoc. Qed.

(** A fresh entry is a dict that carries today's date. *)
Lemma fresh_on_inv today_str entry :
  fresh_on today_str entry = true →
  ∃ d, entry = JDict d ∧ d !! "last_updated" = Some (JStr today_str).
Proof.
  unfold fresh_on. destruct entry as [| | | |l|d]; simpl; try done.
  unfold dict_get. intros H. exists d. split; [done|].
  destruct (d !! "last_updated") as [[]|]; simpl in H; try done.
  by apply bool_decide_eq_true in H as ->.
Qed.

Lemma fresh_on_structured today_str names :
  fresh_on today_str (structured_entry today_str names) = true
  ∧ _extract_entry (structured_entry today_str names) = (JStr today_str, JList names).
Proof.
  unfold fresh_on, structured_entry. simpl. unfold dict_get, dict_get_default.
  rewrite lookup_insert_eq, lookup_insert_ne, lookup_insert_eq by done. simpl.
  by rewrite bool_decide_eq_true_2.
Qed.

Section FreshLoop.
Variable tmdb_find : string → find_response.
Variable tmdb_watch : string → Z → json.

Lemma get_watch_providers_calls tmdb_id media_type region w :
  ∃ names new,
    get_watch_providers tmdb_watch tmdb_id media_type region w
    = (names, add_calls new w)
    ∧ ∀ c, c ∈ new → ∃ id, c = WatchCall id media_type region.
Proof.
  unfold get_watch_providers. destruct tmdb_id as [id|].
  - destruct (getitem3 _ _ _ _); eexists _, [WatchCall id media_type region];
      (split; [reflexivity|]); intros c ->%list_elem_of_singleton; eauto.
  - exists [], []. rewrite add_calls_nil. split; [done|]. by intros c ?%elem_of_nil.
Qed.

(** The second loop never touches a region that is dated today: its entry
    stays, its names are the cached names, and no lookup names it. *)
Lemma fresh_loop_hit tmdb_id media_type today_str regions :
  ∀ providers_block results w region,
    fresh_on today_str (dict_get providers_block region) = true →
    ∃ providers_block' results' new,
      fresh_loop tmdb_watch tmdb_id media_type today_str regions
        providers_block results w
      = (providers_block', results', add_calls new w)
      ∧ providers_block' !! region = providers_block !! region
      ∧ results' !! region
        = (if bool_decide (region ∈ regions)
           then Some (_extract_entry (dict_get providers_block region)).2
           else results !! region)
      ∧ ∀ c, c ∈ new →
          ∃ id other, c = WatchCall id media_type other
                      ∧ other ≠ region ∧ other ∈ regions.
Proof.
  induction regions as [|r regions IH]; intros block results w region Hfresh.
  - simpl. exists block, results, []. rewrite add_calls_nil.
    repeat split; try done. by intros c ?%elem_of_nil.
  - simpl.
    destruct (_extract_entry (dict_get block r)) as [last_updated names] eqn:Hentry.
    destruct (eq_str last_updated today_str) eqn:Hdate.
    + destruct (IH block (<[r := names]> results) w region Hfresh)
        as (block' & results' & new & -> & Hblock & Hres & Hnew).
      exists block', results', new. repeat split; try done.
      * rewrite Hres. destruct (decide (r = region)) as [->|Hne].
        -- rewrite lookup_insert_eq, Hentry. simpl.
           rewrite (bool_decide_eq_true_2 (region ∈ region :: regions)) by left.
           by case_bool_decide.
        -- rewrite lookup_insert_ne by done.
           by rewrite bool_decide_elem_of_cons_ne.
      * intros c Hc. destruct (Hnew c Hc) as (id & other & -> & ? & ?).
        exists id, other. repeat split; try done. by right.
    + assert (r ≠ region) as Hne.
      { intros ->. unfold fresh_on in Hfresh. rewrite Hentry in Hfresh.
        simpl in Hfresh. congruence. }
      assert (∃ names' new1,
                match tmdb_id with
                | Some _ => get_watch_providers tmdb_watch tmdb_id media_type r w
                | None => ([], w)
                end = (names', add_calls new1 w)
                ∧ ∀ c, c ∈ new1 → ∃ id, c = WatchCall id media_type r)
        as (names' & new1 & -> & Hnew1).
      { destruct tmdb_id; [apply get_watch_providers_calls|].
        exists [], []. rewrite add_calls_nil. split; [done|].
        by intros c ?%elem_of_nil. }
      destruct (IH (<[r := structured_entry today_str names']> block)
                  (<[r := JList names']> results) (add_calls new1 w) region)
        as (block' & results' & new & -> & Hblock & Hres & Hnew).
      { unfold dict_get in *. by rewrite lookup_insert_ne. }
      exists block', results', (new1 ++ new)%list. rewrite add_calls_app.
      repeat split; try done.
      * by rewrite Hblock, lookup_insert_ne.
      * rewrite Hres. unfold dict_get. rewrite !lookup_insert_ne by done.
        by rewrite bool_decide_elem_of_cons_ne.
      * intros c [Hc|Hc]%elem_of_app.
        -- destruct (Hnew1 c Hc) as (id & ->). exists id, r.
           repeat split; try done. by left.
        -- destruct (Hnew c Hc) as (id & other & -> & ? & ?).
           exists id, other. repeat split; try done. by right.
Qed.

End FreshLoop.


Lemma cached_entry_stored_block imdb_id region w :
  cached_entry imdb_id region w = stored_block imdb_id w !! region.
Proof.
  unfold cached_entry, stored_block.
  by destruct (sql_load imdb_id w).
Qed.

Lemma stored_block_sql_save imdb_id tmdb_id block w :
  stored_block imdb_id (sql_save imdb_id (CacheDict tmdb_id (Some block)) w) = block.
Proof.
  unfold stored_block, sql_load, sql_save. simpl.
  by rewrite lookup_insert_eq.
Qed.

Section FreshProperties.
Variable tmdb_find : string → find_response.
Variable tmdb_watch : string → Z → json.

(** A requested region that is not dated today is given a structured entry
    with today's date, and the names stored are the names returned. *)
Lemma fresh_loop_refresh tmdb_id media_type today_str regions :
  ∀ providers_block results w region,
    region ∈ regions →
    fresh_on today_str (dict_get providers_block region) = false →
    ∃ providers_block' results' new names,
      fresh_loop tmdb_watch tmdb_id media_type today_str regions
        providers_block results w
      = (providers_block', results', add_calls new w)
      ∧ providers_block' !! region = Some (structured_entry today_str names)
      ∧ results' !! region = Some (JList names).
Proof.
  induction regions as [|r regions IH]; intros block results w region Hin Hstale.
  - by apply elem_of_nil in Hin.
  - simpl.
    destruct (_extract_entry (dict_get block r)) as [last_updated names] eqn:Hentry.
    destruct (decide (r = region)) as [->|Hne].
    + unfold fresh_on in Hstale. rewrite Hentry in Hstale. simpl in Hstale.
      rewrite Hstale.
      assert (∃ names' new1,
                match tmdb_id with
                | Some _ => get_watch_providers tmdb_watch tmdb_id media_type region w
                | None => ([], w)
                end = (names', add_calls new1 w))
        as (names' & new1 & ->).
      { destruct tmdb_id.
        - destruct (get_watch_providers_calls tmdb_watch (Some z) media_type region w)
            as (n & c & -> & _). eauto.
        - exists [], []. by rewrite add_calls_nil. }
      destruct (fresh_on_structured today_str names') as [Hnow Hextract].
      destruct (fresh_loop_hit tmdb_watch tmdb_id media_type today_str regions
                  (<[region := structured_entry today_str names']> block)
                  (<[region := JList names']> results) (add_calls new1 w) region)
        as (block' & results' & new & -> & Hblock & Hres & _).
      { unfold dict_get. by rewrite lookup_insert_eq. }
      exists block', results', (new1 ++ new)%list, names'.
      rewrite add_calls_app. split; [done|]. split.
      * by rewrite Hblock, lookup_insert_eq.
      * rewrite Hres. unfold dict_get. rewrite !lookup_insert_eq.
        change (default JNull (Some (structured_entry today_str names')))
          with (structured_entry today_str names').
        rewrite Hextract. by destruct (bool_decide _).
    + apply elem_of_cons in Hin as [->|Hin]; [done|].
      destruct (eq_str last_updated today_str).
      * apply IH; done.
      * assert (∃ names' new1,
                  match tmdb_id with
                  | Some _ => get_watch_providers tmdb_watch tmdb_id media_type r w
                  | None => ([], w)
                  end = (names', add_calls new1 w))
          as (names' & new1 & ->).
        { destruct tmdb_id.
          - destruct (get_watch_providers_calls tmdb_watch (Some z) media_type r w)
              as (n & c & -> & _). eauto.
          - exists [], []. by rewrite add_calls_nil. }
        destruct (IH (<[r := structured_entry today_str names']> block)
                    (<[r := JList names']> results) (add_calls new1 w) region)
          as (block' & results' & new & names0 & -> & Hblock & Hres); [done| |].
        { unfold dict_get in *. by rewrite lookup_insert_ne. }
        exists block', results', (new1 ++ new)%list, names0.
        by rewrite add_calls_app.
Qed.

Lemma get_tmdb_id_calls imdb_id w :
  get_tmdb_id tmdb_find imdb_id w
  = ((get_tmdb_id tmdb_find imdb_id w).1, add_calls [FindCall imdb_id] w).
Proof.
  unfold get_tmdb_id.
  destruct (movie_results _); [destruct (tv_results _)|]; reflexivity.
Qed.

(** [get_providers_fresh] is its second loop, run on the stored region map
    after at most one [find] request, followed by [sql_save]. *)
Lemma get_providers_fresh_shape imdb_id imdb_type regions today_str w :
  ∃ tmdb_id finds,
    (∀ c, c ∈ finds → c = FindCall imdb_id)
    ∧ get_providers_fresh tmdb_find tmdb_watch imdb_id imdb_type regions today_str w
      = let '(providers_block, results, w) :=
          fresh_loop tmdb_watch tmdb_id (imdb_type_to_tmdb_type imdb_type)
            today_str regions (stored_block imdb_id w) ∅ (add_calls finds w) in
        (ProvidersResult tmdb_id results,
         sql_save imdb_id (CacheDict tmdb_id (Some providers_block)) w).
Proof.
  unfold get_providers_fresh, stored_block.
  set (cached := default empty_dict (sql_load imdb_id w)).
  destruct (need_any_fetch _ _ _ && bool_decide _).
  - rewrite get_tmdb_id_calls.
    exists (get_tmdb_id tmdb_find imdb_id w).1, [FindCall imdb_id].
    split; [by intros c ->%list_elem_of_singleton|].
    by destruct (fresh_loop _ _ _ _ _ _ _ _) as [[??]?].
  - exists (cd_tmdb_id cached), []. rewrite add_calls_nil.
    split; [by intros c ?%elem_of_nil|].
    by destruct (fresh_loop _ _ _ _ _ _ _ _) as [[??]?].
Qed.

(** C1: a requested region whose cached entry is dated today is answered
    with the cached names; the requests that [get_providers_fresh] sends
    include no availability lookup for that region; and the cached entry
    stays as it was. *)
Theorem get_providers_fresh_cache_hit (imdb_id imdb_type : string)
    (regions : list string) (today_str : string) (w : world)
    (region : string) (entry : json) :
  region ∈ regions →
  cached_entry imdb_id region w = Some entry →
  (_extract_entry entry).1 = JStr today_str →
  ∃ res w' new,
    get_providers_fresh tmdb_find tmdb_watch imdb_id imdb_type regions today_str w
    = (res, w')
    ∧ res_providers res !! region = Some (_extract_entry entry).2
    ∧ calls w' = calls w ++ new
    ∧ (∀ id media_type, WatchCall id media_type region ∉ new)
    ∧ cached_entry imdb_id region w' = Some entry.
Proof.
  intros Hin Hentry Hdate. rewrite cached_entry_stored_block in Hentry.
  destruct (get_providers_fresh_shape imdb_id imdb_type regions today_str w)
    as (tmdb_id & finds & Hfinds & ->).
  destruct (fresh_loop_hit tmdb_watch tmdb_id (imdb_type_to_tmdb_type imdb_type)
              today_str regions (stored_block imdb_id w) ∅
              (add_calls finds w) region)
    as (block' & results' & new & -> & Hblock & Hres & Hnew).
  { unfold fresh_on, dict_get. rewrite Hentry. simpl. rewrite Hdate. simpl.
    by apply bool_decide_eq_true. }
  rewrite add_calls_app.
  eexists _, _, (finds ++ new)%list. split; [reflexivity|].
  simpl. repeat split.
  - rewrite Hres, bool_decide_eq_true_2 by done.
    unfold dict_get. by rewrite Hentry.
  - intros id media_type [Hc|Hc]%elem_of_app.
    + by apply Hfinds in Hc.
    + destruct (Hnew _ Hc) as (? & ? & [= _ _ <-] & ? & _). done.
  - rewrite cached_entry_stored_block, stored_block_sql_save. congruence.
Qed.

(** C7: on read, a bare list of names is accepted and has no date, so it
    is stale on every day, and a structured entry yields its date and its
    names; on write, after [get_providers_fresh] every requested region
    holds a dict dated today, never a bare list, and a region that was
    refreshed holds exactly the structured entry of today's date and the
    names returned for it. *)
Theorem cache_entries_migrate_one_way :
  (∀ names today_str,
     _extract_entry (JList names) = (JNull, JList names)
     ∧ fresh_on today_str (JList names) = false)
  ∧ (∀ d, _extract_entry (JDict d)
          = (dict_get d "last_updated", dict_get_default d "names" (JList [])))
  ∧ (∀ date names,
       _extract_entry (structured_entry date names) = (JStr date, JList names))
  ∧ (∀ imdb_id imdb_type regions today_str w region,
       region ∈ regions →
       ∃ res w',
         get_providers_fresh tmdb_find tmdb_watch imdb_id imdb_type regions
           today_str w = (res, w')
         ∧ (∃ d, cached_entry imdb_id region w' = Some (JDict d)
                 ∧ d !! "last_updated" = Some (JStr today_str))
         ∧ (fresh_on today_str (dict_get (stored_block imdb_id w) region) = false →
            ∃ names,
              cached_entry imdb_id region w' = Some (structured_entry today_str names)
              ∧ res_providers res !! region = Some (JList names))).
Proof.
  split; [done|]. split; [done|]. split; [intros; apply fresh_on_structured|].
  intros imdb_id imdb_type regions today_str w region Hin.
  destruct (get_providers_fresh_shape imdb_id imdb_type regions today_str w)
    as (tmdb_id & finds & _ & ->).
  destruct (fresh_on today_str (dict_get (stored_block imdb_id w) region))
    eqn:Hfresh.
  - destruct (fresh_loop_hit tmdb_watch tmdb_id (imdb_type_to_tmdb_type imdb_type)
                today_str regions (stored_block imdb_id w) ∅
                (add_calls finds w) region Hfresh)
      as (block' & results' & new & -> & Hblock & _).
    eexists _, _. split; [reflexivity|]. split; [|done].
    rewrite cached_entry_stored_block, stored_block_sql_save, Hblock.
    destruct (fresh_on_inv _ _ Hfresh) as (d & Hd & Hdate). exists d.
    split; [|done]. unfold dict_get in Hd.
    destruct (stored_block imdb_id w !! region); simpl in Hd; by subst.
  - destruct (fresh_loop_refresh tmdb_id (imdb_type_to_tmdb_type imdb_type)
                today_str regions (stored_block imdb_id w) ∅
                (add_calls finds w) region Hin Hfresh)
      as (block' & results' & new & names & -> & Hblock & Hres).
    eexists _, _. split; [reflexivity|].
    rewrite cached_entry_stored_block, stored_block_sql_save, Hblock. split.
    + eexists. split; [reflexivity|]. by rewrite lookup_insert_eq.
    + intros _. by exists names.
Qed.

End FreshProperties.

(** ** The refresh decision and the watchlist metadata *)


Lemma refresh_decision_fold refresh_mode existing_dates regions :
  ∀ refresh0 cached0 : gset string,
    let '(refresh_regions, cached_regions) :=
      foldl (λ '(refresh_regions, cached_regions) r,
               let last := dict_get existing_dates r in
               if is_none last then (refresh_regions ∪ {[r]}, cached_regions)
               else if bool_decide (refresh_mode = "refresh")
                    then (refresh_regions ∪ {[r]}, cached_regions)
                    else (refresh_regions, cached_regions ∪ {[r]}))
            (refresh0, cached0) regions in
    (∀ r, r ∈ refresh_regions ↔
          r ∈ refresh0
          ∨ (r ∈ regions
             ∧ (recorded_date existing_dates r = false ∨ refresh_mode = "refresh")))
    ∧ (∀ r, r ∈ cached_regions ↔
            r ∈ cached0
            ∨ (r ∈ regions ∧ recorded_date existing_dates r = true
               ∧ refresh_mode ≠ "refresh")).
Proof.
  unfold recorded_date.
  induction regions as [|r0 regions IH]; intros refresh0 cached0.
  - simpl. split; intros r; rewrite elem_of_nil; tauto.
  - cbn [foldl].
    destruct (is_none (dict_get existing_dates r0)) eqn:Hnone;
      [|case_bool_decide as Hmode].
    + specialize (IH (refresh0 ∪ {[r0]}) cached0).
      destruct (foldl _ _ regions) as [rr cr]. destruct IH as [IHr IHc].
      split; intros r; [rewrite IHr | rewrite IHc];
        rewrite ?elem_of_union, ?elem_of_singleton, elem_of_cons.
      * split; [intros [[?| ->]|[? ?]] | intros [?|[[->|?] ?]]];
          rewrite ?Hnone; simpl; tauto.
      * split; [intros [?|(? & ? & ?)] | intros [?|([->|?] & Hrec & ?)]];
          try tauto. rewrite Hnone in Hrec. done.
    + specialize (IH (refresh0 ∪ {[r0]}) cached0).
      destruct (foldl _ _ regions) as [rr cr]. destruct IH as [IHr IHc].
      split; intros r; [rewrite IHr | rewrite IHc];
        rewrite ?elem_of_union, ?elem_of_singleton, elem_of_cons.
      * split; [intros [[?| ->]|[? ?]] | intros [?|[[->|?] ?]]]; tauto.
      * split; [intros [?|(? & ? & ?)] | intros [?|([->|?] & ? & ?)]]; tauto.
    + specialize (IH refresh0 (cached0 ∪ {[r0]})).
      destruct (foldl _ _ regions) as [rr cr]. destruct IH as [IHr IHc].
      split; intros r; [rewrite IHr | rewrite IHc];
        rewrite ?elem_of_union, ?elem_of_singleton, elem_of_cons.
      * split; [intros [?|[? ?]] | intros [?|[[->|?] [Hrec|?]]]]; try tauto.
        rewrite Hnone in Hrec. done.
      * split; [intros [[?| ->]|(? & ? & ?)] | intros [?|([->|?] & ? & ?)]];
          rewrite ?Hnone; simpl; tauto.
Qed.

(** What the decision is on an existing watchlist. *)
Lemma refresh_decision_existing refresh_mode existing_dates regions :
  let '(refresh_regions, cached_regions) :=
    refresh_decision false refresh_mode existing_dates regions in
  (∀ r, r ∈ refresh_regions ↔
        r ∈ regions
        ∧ (recorded_date existing_dates r = false ∨ refresh_mode = "refresh"))
  ∧ (∀ r, r ∈ cached_regions ↔
          r ∈ regions ∧ recorded_date existing_dates r = true
          ∧ refresh_mode ≠ "refresh").
Proof.
  unfold refresh_decision.
  pose proof (refresh_decision_fold refresh_mode existing_dates regions ∅ ∅) as H.
  destruct (foldl _ _ regions) as [rr cr]. destruct H as [Hr Hc].
  split; intros r; [rewrite Hr | rewrite Hc]; rewrite elem_of_empty; tauto.
Qed.

(** The dates after the loop that stamps the refreshed regions. *)
Lemma stamp_regions_lookup refresh_regions today_str meta r :
  meta_regions (stamp_regions refresh_regions today_str meta) !! r
  = if bool_decide (r ∈ refresh_regions) then Some (JStr today_str)
    else meta_regions meta !! r.
Proof.
  unfold stamp_regions. unfold meta_regions at 1. rewrite lookup_insert_eq.
  by rewrite (foldl_insert_lookup _ (λ _, JStr today_str)).
Qed.

Lemma load_save_watchlist_meta csv_filename meta w :
  is_Some (meta !! "filename") →
  (∃ d, meta !! "regions" = Some (JDict d)) →
  load_watchlist_meta csv_filename (save_watchlist_meta csv_filename meta w) = meta.
Proof.
  intros [f Hf] [d Hd]. unfold load_watchlist_meta, save_watchlist_meta. simpl.
  rewrite Hf, lookup_insert_eq, Hd, Hf. done.
Qed.

Lemma load_watchlist_meta_wf csv_filename w :
  is_Some (load_watchlist_meta csv_filename w !! "filename")
  ∧ ∃ d, load_watchlist_meta csv_filename w !! "regions" = Some (JDict d).
Proof.
  unfold load_watchlist_meta.
  destruct (metas w !! csv_filename) as [data|].
  - set (data' := match data !! "regions" with
                  | Some (JDict _) => data
                  | _ => <["regions" := JDict ∅]> data
                  end).
    assert (∃ d, data' !! "regions" = Some (JDict d)) as [d Hd].
    { unfold data'. destruct (data !! "regions") as [[]|] eqn:E;
        rewrite ?lookup_insert_eq; eauto. }
    destruct (data' !! "filename") eqn:Hf.
    + split; [by rewrite Hf | eauto].
    + rewrite lookup_insert_eq, lookup_insert_ne by done. split; [eauto|eauto].
  - rewrite lookup_insert_eq, lookup_insert_ne, lookup_insert_eq by done. eauto.
Qed.

(** ** Frame properties of the resolver and of the loop over the films *)

Lemma get_providers_cached_world imdb_id regions w :
  (get_providers_cached imdb_id regions w).2 = w.
Proof. unfold get_providers_cached. by destruct (sql_load imdb_id w). Qed.

Lemma cached_entry_other imdb_id other region data w :
  other ≠ imdb_id →
  cached_entry other region (sql_save imdb_id data w) = cached_entry other region w.
Proof.
  intros Hne. unfold cached_entry. by rewrite sql_save_load_other.
Qed.

Lemma cached_entry_add_calls imdb_id region new w :
  cached_entry imdb_id region (add_calls new w) = cached_entry imdb_id region w.
Proof. reflexivity. Qed.

(** [providers.setdefault(r, [])] over the requested regions keeps what is
    set. *)
Lemma setdefault_keeps (regions : list string) :
  ∀ (providers : gmap string json) r names,
    providers !! r = Some names →
    foldl (λ providers r,
             match providers !! r with
             | Some _ => providers
             | None => <[r := JList []]> providers
             end) providers regions !! r = Some names.
Proof.
  induction regions as [|r0 regions IH]; intros providers r names Hr; [done|].
  simpl. apply IH. destruct (providers !! r0) eqn:Hr0; [done|].
  rewrite lookup_insert_ne; [done|]. intros ->. congruence.
Qed.

Section Frames.
Context {pyfloat : Type}.
Variable tmdb_find : string → find_response.
Variable tmdb_watch : string → Z → json.

(** Every request of the second loop is a lookup for a requested region,
    and the entries of the other regions stay. *)
Lemma fresh_loop_calls tmdb_id media_type today_str regions :
  ∀ providers_block results w,
    ∃ providers_block' results' new,
      fresh_loop tmdb_watch tmdb_id media_type today_str regions
        providers_block results w
      = (providers_block', results', add_calls new w)
      ∧ (∀ c, c ∈ new →
           ∃ id region, c = WatchCall id media_type region ∧ region ∈ regions)
      ∧ (∀ region, region ∉ regions →
           providers_block' !! region = providers_block !! region).
Proof.
  induction regions as [|r regions IH]; intros block results w.
  - simpl. exists block, results, []. rewrite add_calls_nil.
    split; [done|]. split; [by intros c ?%elem_of_nil | done].
  - simpl.
    destruct (_extract_entry (dict_get block r)) as [last_updated names].
    destruct (eq_str last_updated today_str).
    + destruct (IH block (<[r := names]> results) w)
        as (block' & results' & new & -> & Hnew & Hrest).
      exists block', results', new. split; [done|]. split.
      * intros c Hc. destruct (Hnew c Hc) as (id & region & -> & ?).
        exists id, region. split; [done | by right].
      * intros region [? ?]%not_elem_of_cons. by apply Hrest.
    + assert (∃ names' new1,
                match tmdb_id with
                | Some _ => get_watch_providers tmdb_watch tmdb_id media_type r w
                | None => ([], w)
                end = (names', add_calls new1 w)
                ∧ ∀ c, c ∈ new1 → ∃ id, c = WatchCall id media_type r)
        as (names' & new1 & -> & Hnew1).
      { destruct tmdb_id; [apply get_watch_providers_calls|].
        exists [], []. rewrite add_calls_nil. split; [done|].
        by intros c ?%elem_of_nil. }
      destruct (IH (<[r := structured_entry today_str names']> block)
                  (<[r := JList names']> results) (add_calls new1 w))
        as (block' & results' & new & -> & Hnew & Hrest).
      exists block', results', (new1 ++ new). rewrite add_calls_app.
      split; [done|]. split.
      * intros c [Hc|Hc]%elem_of_app.
        -- destruct (Hnew1 c Hc) as (id & ->). exists id, r.
           split; [done | by left].
        -- destruct (Hnew c Hc) as (id & region & -> & ?).
           exists id, region. split; [done | by right].
      * intros region [? ?]%not_elem_of_cons.
        rewrite Hrest by done. by rewrite lookup_insert_ne.
Qed.

(** [get_providers_fresh] writes the record of its identifier and sends
    requests: the files and the other records stay, no record is removed,
    the lookups are for requested regions, and the entries of the regions
    that were not requested stay. *)
Lemma get_providers_fresh_frame imdb_id imdb_type regions today_str w :
  ∃ res w' new,
    get_providers_fresh tmdb_find tmdb_watch imdb_id imdb_type regions today_str w
    = (res, w')
    ∧ uploads w' = uploads w ∧ metas w' = metas w ∧ cache_dir w' = cache_dir w
    ∧ calls w' = calls w ++ new
    ∧ (∀ id media_type region,
         WatchCall id media_type region ∈ new → region ∈ regions)
    ∧ (∀ i, i ≠ imdb_id → film_cache w' !! i = film_cache w !! i)
    ∧ (∀ i, is_Some (film_cache w !! i) → is_Some (film_cache w' !! i))
    ∧ (∀ i region, region ∉ regions →
         cached_entry i region w' = cached_entry i region w).
Proof.
  destruct (get_providers_fresh_shape tmdb_find tmdb_watch imdb_id imdb_type
              regions today_str w) as (tmdb_id & finds & Hfinds & ->).
  destruct (fresh_loop_calls tmdb_id (imdb_type_to_tmdb_type imdb_type)
              today_str regions (stored_block imdb_id w) ∅ (add_calls finds w))
    as (block' & results' & new & -> & Hnew & Hrest).
  rewrite add_calls_app. eexists _, _, (finds ++ new).
  split; [reflexivity|]. simpl. repeat split.
  - intros id media_type region [Hc|Hc]%elem_of_app.
    + by apply Hfinds in Hc.
    + by destruct (Hnew _ Hc) as (? & ? & [= _ _ <-] & ?).
  - intros i Hi. by rewrite lookup_insert_ne.
  - intros i Hi. destruct (decide (imdb_id = i)) as [->|];
      [rewrite lookup_insert_eq | rewrite lookup_insert_ne]; eauto.
  - intros i region Hregion. destruct (decide (i = imdb_id)) as [->|Hne].
    + rewrite !cached_entry_stored_block, stored_block_sql_save. by apply Hrest.
    + by rewrite cached_entry_other.
Qed.

(** The loop over the films keeps the films in order, leaves the files
    alone, removes no record, writes only the records of the films, sends
    lookups only for the regions to refresh, and gives each film, for a
    region served from the cache, the names that the store holds. *)
Lemma build_results_frame (films : list (film pyfloat)) regions
    (refresh_regions cached_regions : gset string) today_str :
  ∀ w,
    ∃ results w' new,
      build_results tmdb_find tmdb_watch films regions refresh_regions
        cached_regions today_str w = (results, w')
      ∧ results.*1 = films
      ∧ uploads w' = uploads w ∧ metas w' = metas w ∧ cache_dir w' = cache_dir w
      ∧ calls w' = calls w ++ new
      ∧ (∀ id media_type region,
           WatchCall id media_type region ∈ new → region ∈ refresh_regions)
      ∧ (∀ i, i ∉ film_imdb_id <$> films → film_cache w' !! i = film_cache w !! i)
      ∧ (∀ i, is_Some (film_cache w !! i) → is_Some (film_cache w' !! i))
      ∧ (∀ i region, region ∉ refresh_regions →
           cached_entry i region w' = cached_entry i region w)
      ∧ (∀ film providers region,
           (film, providers) ∈ results →
           region ∈ cached_regions → region ∉ refresh_regions →
           providers !! region
           = Some (_extract_entry
                     (default JNull (cached_entry (film_imdb_id film) region w))).2).
Proof.
  induction films as [|film films IH]; intros w.
  - simpl. exists [], w, []. rewrite app_nil_r. repeat split; try done.
    + by intros ??? ?%elem_of_nil.
    + by intros ??? ?%elem_of_nil.
  - cbn [build_results].
    set (after_fresh :=
           if bool_decide (refresh_regions ≠ ∅)
           then let '(fresh, w0) :=
                  get_providers_fresh tmdb_find tmdb_watch (film_imdb_id film)
                    (film_type film) (elements refresh_regions) today_str w in
                (res_providers fresh ∪ ∅, w0)
           else (∅, w)).
    assert (∃ providers w1 new1,
              after_fresh = (providers, w1)
              ∧ uploads w1 = uploads w ∧ metas w1 = metas w
              ∧ cache_dir w1 = cache_dir w
              ∧ calls w1 = calls w ++ new1
              ∧ (∀ id media_type region,
                   WatchCall id media_type region ∈ new1 → region ∈ refresh_regions)
              ∧ (∀ i, i ≠ film_imdb_id film → film_cache w1 !! i = film_cache w !! i)
              ∧ (∀ i, is_Some (film_cache w !! i) → is_Some (film_cache w1 !! i))
              ∧ (∀ i region, region ∉ refresh_regions →
                   cached_entry i region w1 = cached_entry i region w))
      as (providers1 & w1 & new1 & -> & Hup1 & Hme1 & Hcd1 & Hcalls1 & Hnew1
          & Hother1 & Hkeep1 & Hentry1).
    { unfold after_fresh. case_bool_decide.
      - destruct (get_providers_fresh_frame (film_imdb_id film) (film_type film)
                    (elements refresh_regions) today_str w)
          as (res & w1 & new & -> & ? & ? & ? & ? & Hnew & ? & ? & Hentry).
        eexists _, w1, new. split; [reflexivity|]. repeat split; try done.
        + intros id m region Hc. by eapply elem_of_elements, Hnew.
        + intros i region Hregion. apply Hentry. by rewrite elem_of_elements.
      - exists ∅, w, []. rewrite app_nil_r. repeat split; try done.
        by intros ??? ?%elem_of_nil. }
    set (after_cached :=
           if bool_decide (cached_regions ≠ ∅)
           then let '(cached, w0) :=
                  get_providers_cached (film_imdb_id film)
                    (elements cached_regions) w1 in
                (res_providers cached ∪ providers1, w0)
           else (providers1, w1)).
    assert (∃ providers,
              after_cached = (providers, w1)
              ∧ ∀ region, region ∈ cached_regions →
                  providers !! region
                  = Some (_extract_entry
                            (default JNull
                               (cached_entry (film_imdb_id film) region w1))).2)
      as (providers2 & -> & Hprov2).
    { unfold after_cached. case_bool_decide as Hcached.
      - pose proof (get_providers_cached_world (film_imdb_id film)
                      (elements cached_regions) w1) as Hw.
        unfold get_providers_cached in *. unfold cached_entry.
        destruct (sql_load (film_imdb_id film) w1) as [cached|];
          simpl in *; eexists; (split; [reflexivity|]);
          intros region Hregion; apply lookup_union_Some_l.
        + rewrite (foldl_insert_lookup _
                     (λ region, (_extract_entry
                        (dict_get (default ∅ (cd_providers cached)) region)).2)).
          * rewrite bool_decide_eq_true_2 by (by apply elem_of_elements). done.
          * intros out r. by destruct (_extract_entry _).
        + rewrite (foldl_insert_lookup _ (λ _, JList [])) by done.
          by rewrite bool_decide_eq_true_2 by (by apply elem_of_elements).
      - exists providers1. split; [done|]. intros region Hregion.
        rewrite Hcached in Hregion. by apply elem_of_empty in Hregion. }
    destruct (IH w1) as (results & w' & new & -> & Hfst & Hup & Hme & Hcd
                         & Hcalls & Hnew & Hother & Hkeep & Hentry & Hprov).
    eexists _, w', (new1 ++ new).
    split; [reflexivity|]. repeat split.
    + rewrite fmap_cons. simpl. by f_equal.
    + congruence.
    + congruence.
    + congruence.
    + rewrite Hcalls, Hcalls1. by rewrite app_assoc.
    + intros id m region [Hc|Hc]%elem_of_app; eauto.
    + intros i Hi.
      assert (i ≠ film_imdb_id film ∧ i ∉ film_imdb_id <$> films)
        as [Hne Hnot] by (rewrite <- not_elem_of_cons; exact Hi).
      rewrite Hother by done. by apply Hother1.
    + intros i Hi. by apply Hkeep, Hkeep1.
    + intros i region Hregion. rewrite Hentry by done. by apply Hentry1.
    + intros film0 providers region [[= -> ->]|Hin]%elem_of_cons Hc Hr.
      * apply setdefault_keeps. rewrite Hprov2 by done. by rewrite Hentry1.
      * rewrite (Hprov _ _ _ Hin Hc Hr). by rewrite Hentry1.
Qed.

End Frames.

(** ** [process] and [delete_file] *)

Lemma truthy_ne_empty s : s ≠ "" → PyStr.truthy s = true.
Proof. by destruct s. Qed.

Section AppProperties.
Context {pyfloat : Type}.
Variable py_int : string → option Z.
Variable py_float : string → option pyfloat.
Variable tmdb_find : string → find_response.
Variable tmdb_watch : string → Z → json.

Local Abbreviation process := (process py_int py_float tmdb_find tmdb_watch).
Local Abbreviation parse_imdb_csv := (parse_imdb_csv py_int py_float).

(** On the branch of an existing file, [process] is the resolution of the
    parsed films under the decision taken from the file's metadata. *)
Lemma process_existing_run today_str req w t films :
  is_new_upload_selected req = false →
  selected_name req ≠ "" →
  uploads w !! selected_name req = Some t →
  parse_imdb_csv t = inr films →
  process today_str req w
  = let meta := load_watchlist_meta (selected_name req) w in
    let '(refresh_regions, cached_regions) :=
      refresh_decision false (default "auto" (form_refresh_mode req))
        (meta_regions meta) (requested_regions req) in
    let '(results, w) :=
      build_results tmdb_find tmdb_watch films (requested_regions req)
        refresh_regions cached_regions today_str w in
    let w :=
      if bool_decide (refresh_regions ≠ ∅) then
        save_watchlist_meta (selected_name req)
          (stamp_regions (elements refresh_regions) today_str meta) w
      else w in
    (Rendered results (requested_regions req) (selected_name req), w).
Proof.
  intros Hnew Hname Hfile Hparse. unfold process.
  rewrite (truthy_ne_empty _ Hname), Hnew. simpl.
  assert (match file_upload req with
          | Some (csv_filename, content) =>
              process_existing py_int py_float (selected_name req) w
          | None => process_existing py_int py_float (selected_name req) w
          end = process_existing py_int py_float (selected_name req) w) as ->.
  { by destruct (file_upload req) as [[??]|]. }
  unfold process_existing. rewrite Hfile, Hparse. done.
Qed.

Lemma remove_old_cache_files_frame old_imdb_ids new_ids ids_in_other :
  ∀ w,
    let w' := remove_old_cache_files old_imdb_ids new_ids ids_in_other w in
    film_cache w' = film_cache w ∧ uploads w' = uploads w
    ∧ metas w' = metas w ∧ calls w' = calls w.
Proof.
  unfold remove_old_cache_files.
  induction old_imdb_ids as [|i ids IH]; intros w; simpl; [done|].
  repeat case_bool_decide; try apply IH.
  destruct (IH (set_cache_dir (λ d, d ∖ {[i]}) w)) as (-> & -> & -> & ->). done.
Qed.

Lemma requested_regions_nonempty req :
  (list_to_set (requested_regions req) : gset string) ≠ ∅.
Proof.
  unfold requested_regions. destruct (form_regions req) as [|r rs]; set_solver.
Qed.

(** On the branch of a new upload, [process] saves the upload, removes the
    per-film cache files of the identifiers that left the watchlist, and
    resolves every film with every requested region marked to refresh. *)
Lemma process_upload_run today_str req w csv_filename content films :
  file_upload req = Some (csv_filename, content) →
  is_new_upload_selected req = true →
  parse_imdb_csv content = inr films →
  process today_str req w
  = let '(old_imdb_ids, ids_in_other) :=
      match uploads w !! csv_filename with
      | Some _ =>
          let old_imdb_ids :=
            default [] (try_imdb_ids py_int py_float csv_filename w) in
          (old_imdb_ids,
           ids_in_other_lists py_int py_float csv_filename old_imdb_ids w)
      | None => ([], ∅)
      end in
    let w := set_uploads (insert csv_filename content) w in
    let w :=
      remove_old_cache_files old_imdb_ids
        (list_to_set (film_imdb_id <$> films)) ids_in_other w in
    let meta : gmap string json :=
      <["filename" := JStr csv_filename]> (<["regions" := JDict ∅]> ∅) in
    let '(results, w) :=
      build_results tmdb_find tmdb_watch films (requested_regions req)
        (list_to_set (requested_regions req)) ∅ today_str w in
    (Rendered results (requested_regions req) csv_filename,
     save_watchlist_meta csv_filename
       (stamp_regions (elements (list_to_set (requested_regions req) : gset string))
          today_str meta) w).
Proof.
  intros Hupload Hnew Hparse. unfold process.
  assert (upload_valid req = true) as ->.
  { unfold is_new_upload_selected in Hnew. by apply andb_true_iff in Hnew as [? _]. }
  rewrite andb_false_r, Hupload, Hnew. unfold process_upload.
  destruct (match uploads w !! csv_filename with Some _ => _ | None => _ end)
    as [old_imdb_ids ids_in_other].
  rewrite Hparse. cbv zeta. unfold refresh_decision.
  destruct (build_results _ _ _ _ _ _ _ _) as [results w1].
  by rewrite bool_decide_eq_true_2 by apply requested_regions_nonempty.
Qed.

(** [process] removes no record from the cache store, whatever the
    request. *)
Lemma process_keeps_records today_str req w i :
  is_Some (film_cache w !! i) →
  is_Some (film_cache (process today_str req w).2 !! i).
Proof.
  intros Hi. unfold process.
  destruct (negb _ && negb _); [done|].
  set (branch := match file_upload req with Some _ => _ | None => _ end).
  assert (is_Some (film_cache branch.2 !! i)) as Hbranch.
  { assert (∀ name, is_Some (film_cache
              (process_existing py_int py_float name w).2 !! i)) as Hexisting.
    { intros name. unfold process_existing.
      destruct (uploads w !! name); [|done].
      by destruct (parse_imdb_csv _). }
    unfold branch. destruct (file_upload req) as [[csv_filename content]|];
      [|apply Hexisting].
    destruct (is_new_upload_selected req); [|apply Hexisting].
    unfold process_upload.
    destruct (match uploads w !! csv_filename with Some _ => _ | None => _ end)
      as [old_imdb_ids ids_in_other].
    destruct (parse_imdb_csv _) as [e|l]; [done|]. simpl.
    by destruct (remove_old_cache_files_frame old_imdb_ids
                   (list_to_set (film_imdb_id <$> l)) ids_in_other
                   (set_uploads (insert csv_filename content) w)) as (-> & _). }
  destruct branch as [[early|[[csv_filename films] meta]] w0]; [done|].
  simpl in Hbranch.
  destruct (refresh_decision _ _ _ _) as [rr cr].
  destruct (build_results_frame tmdb_find tmdb_watch films
              (requested_regions req) rr cr today_str w0)
    as (results & w1 & new & -> & _ & _ & _ & _ & _ & _ & _ & Hkeep & _).
  case_bool_decide; simpl; by apply Hkeep.
Qed.

(** C4: on an existing watchlist a requested region without a recorded
    date is marked to refresh, and one with a recorded date is marked to
    refresh exactly when the mode is ["refresh"] and is otherwise served
    from the cache only: the films get the names that the store holds for
    it and no lookup is sent for it.  When [process] is done, the metadata
    holds today's date for every refreshed region and what it held before
    for every other region.  On a new upload every requested region is
    marked to refresh, whatever the mode. *)
Theorem process_refresh_policy (today_str : string) (req : request) (w : world) :
  (∀ refresh_mode existing_dates regions,
     let '(refresh_regions, cached_regions) :=
       refresh_decision false refresh_mode existing_dates regions in
     (∀ r, r ∈ regions → recorded_date existing_dates r = false →
           r ∈ refresh_regions ∧ r ∉ cached_regions)
     ∧ (∀ r, r ∈ regions → recorded_date existing_dates r = true →
             (r ∈ refresh_regions ↔ refresh_mode = "refresh")
             ∧ (r ∈ cached_regions ↔ refresh_mode ≠ "refresh"))
     ∧ (∀ r, r ∈ refresh_regions ∨ r ∈ cached_regions → r ∈ regions))
  ∧ (∀ refresh_mode existing_dates regions,
       refresh_decision true refresh_mode existing_dates regions
       = (list_to_set regions, ∅))
  ∧ (∀ t films,
       is_new_upload_selected req = false →
       selected_name req ≠ "" →
       uploads w !! selected_name req = Some t →
       parse_imdb_csv t = inr films →
       let meta := load_watchlist_meta (selected_name req) w in
       let '(refresh_regions, cached_regions) :=
         refresh_decision false (default "auto" (form_refresh_mode req))
           (meta_regions meta) (requested_regions req) in
       ∃ results w' new,
         process today_str req w
         = (Rendered results (requested_regions req) (selected_name req), w')
         ∧ results.*1 = films
         ∧ calls w' = calls w ++ new
         ∧ (∀ id media_type r, WatchCall id media_type r ∈ new → r ∈ refresh_regions)
         ∧ (∀ film providers r,
              (film, providers) ∈ results → r ∈ cached_regions →
              providers !! r
              = Some (_extract_entry
                        (default JNull (cached_entry (film_imdb_id film) r w))).2)
         ∧ (∀ r, r ∈ refresh_regions →
              meta_regions (load_watchlist_meta (selected_name req) w') !! r
              = Some (JStr today_str))
         ∧ (∀ r, r ∉ refresh_regions →
              meta_regions (load_watchlist_meta (selected_name req) w') !! r
              = meta_regions meta !! r))
  ∧ (∀ csv_filename content films,
       file_upload req = Some (csv_filename, content) →
       is_new_upload_selected req = true →
       parse_imdb_csv content = inr films →
       ∃ results w',
         process today_str req w
         = (Rendered results (requested_regions req) csv_filename, w')
         ∧ ∀ r, meta_regions (load_watchlist_meta csv_filename w') !! r
                = if bool_decide (r ∈ requested_regions req)
                  then Some (JStr today_str) else None).
Proof.
  split; [|split; [done|split]]; cycle 2.
  { intros csv_filename content films Hupload Hnew Hparse.
    rewrite (process_upload_run today_str req w csv_filename content films)
      by done.
    destruct (match uploads w !! csv_filename with Some _ => _ | None => _ end)
      as [old_imdb_ids ids_in_other].
    cbv zeta.
    destruct (build_results _ _ _ _ _ _ _ _) as [results w1].
    eexists _, _. split; [reflexivity|]. intros r.
    rewrite load_save_watchlist_meta.
    - rewrite stamp_regions_lookup. unfold meta_regions.
      rewrite lookup_insert_ne, lookup_insert_eq, lookup_empty by done.
      apply (f_equal (λ b : bool, if b then _ else _)), bool_decide_ext.
      by rewrite elem_of_elements, elem_of_list_to_set.
    - unfold stamp_regions. by rewrite lookup_insert_ne, lookup_insert_eq.
    - unfold stamp_regions. rewrite lookup_insert_eq. eauto. }
  - intros refresh_mode existing_dates regions.
    pose proof (refresh_decision_existing refresh_mode existing_dates regions) as H.
    destruct (refresh_decision false _ _ _) as [rr cr]. destruct H as [Hr Hc].
    split; [|split].
    + intros r Hin Hrec. rewrite Hr, Hc. split; [tauto|].
      intros (_ & Hrec' & _). congruence.
    + intros r Hin Hrec. rewrite Hr, Hc. split; split; try tauto.
      intros (_ & [Hrec'| ->]); [congruence | done].
    + intros r. rewrite Hr, Hc. tauto.
  - intros t films Hnew Hname Hfile Hparse meta.
    rewrite (process_existing_run today_str req w t films) by done.
    cbv zeta. fold meta.
    pose proof (refresh_decision_existing (default "auto" (form_refresh_mode req))
                  (meta_regions meta) (requested_regions req)) as Hdec.
    destruct (refresh_decision false _ _ _) as [rr cr].
    destruct Hdec as [Hr Hc].
    destruct (build_results_frame tmdb_find tmdb_watch films
                (requested_regions req) rr cr today_str w)
      as (results & w1 & new & -> & Hfst & Hup & Hme & Hcd & Hcalls & Hnew1
          & _ & _ & _ & Hprov).
    destruct (load_watchlist_meta_wf (selected_name req) w) as [Hf [d Hd]].
    fold meta in Hf, Hd.
    assert (∀ r, r ∈ cr → r ∉ rr) as Hdisj.
    { intros r. rewrite Hr, Hc. intros (_ & Hrec & Hmode) (_ & [Hrec'|?]);
        [congruence | done]. }
    eexists _, _, new. split; [reflexivity|]. repeat split; try done.
    + by case_bool_decide.
    + intros film providers r Hin Hcr. eapply Hprov; eauto.
    + intros r Hrr. rewrite bool_decide_eq_true_2 by (intros ->; set_solver).
      rewrite load_save_watchlist_meta.
      * rewrite stamp_regions_lookup.
        by rewrite bool_decide_eq_true_2 by (by apply elem_of_elements).
      * unfold stamp_regions. by rewrite lookup_insert_ne.
      * unfold stamp_regions. rewrite lookup_insert_eq. eauto.
    + intros r Hrr. case_bool_decide.
      * rewrite load_save_watchlist_meta.
        -- rewrite stamp_regions_lookup.
           by rewrite bool_decide_eq_false_2 by (by rewrite elem_of_elements).
        -- unfold stamp_regions. by rewrite lookup_insert_ne.
        -- unfold stamp_regions. rewrite lookup_insert_eq. eauto.
      * unfold load_watchlist_meta, meta. by rewrite Hme.
Qed.

(** *** Reconciliation on delete *)

Local Abbreviation delete_file := (delete_file py_int py_float).
Local Abbreviation try_imdb_ids := (try_imdb_ids py_int py_float).
Local Abbreviation ids_in_other_lists := (ids_in_other_lists py_int py_float).

Lemma elem_of_other_watchlists filename w wl :
  wl ∈ other_watchlists filename w
  ↔ is_Some (uploads w !! wl) ∧ PyStr.endswith ".csv" wl = true ∧ wl ≠ filename.
Proof.
  unfold other_watchlists, listdir.
  rewrite list_elem_of_filter, elem_of_elements, elem_of_dom. tauto.
Qed.

(** The shared identifiers: those of [ids] that a [.csv] file other than
    [filename] lists, among the files that parse. *)
Lemma elem_of_ids_in_other_lists filename ids w i :
  i ∈ ids_in_other_lists filename ids w
  ↔ i ∈ ids
    ∧ ∃ wl other_ids,
        wl ∈ other_watchlists filename w
        ∧ try_imdb_ids wl w = Some other_ids ∧ i ∈ other_ids.
Proof.
  unfold ids_in_other_lists.
  generalize (other_watchlists filename w). intros wls.
  enough (∀ acc : gset string,
            i ∈ foldl (λ shared_ids wl,
                         match try_imdb_ids wl w with
                         | Some other_ids =>
                             shared_ids ∪ (list_to_set ids ∩ list_to_set other_ids)
                         | None => shared_ids
                         end) acc wls
            ↔ i ∈ acc
              ∨ (i ∈ ids
                 ∧ ∃ wl other_ids,
                     wl ∈ wls ∧ try_imdb_ids wl w = Some other_ids
                     ∧ i ∈ other_ids)) as H.
  { rewrite H, elem_of_empty. tauto. }
  induction wls as [|wl wls IH]; intros acc; simpl.
  - split; [tauto|]. intros [?|(_ & ? & ? & []%elem_of_nil & _)]. done.
  - rewrite IH. destruct (try_imdb_ids wl w) as [other_ids|] eqn:Hwl.
    + rewrite elem_of_union, elem_of_intersection, !elem_of_list_to_set.
      split.
      * intros [[?|[? ?]]|(? & wl' & ids' & ? & ? & ?)]; [tauto| |].
        -- right. split; [done|]. exists wl, other_ids.
           split; [by left | done].
        -- right. split; [done|]. exists wl', ids'. split; [by right | done].
      * intros [?|(? & wl' & ids' & [->|?]%elem_of_cons & Hids & ?)]; [tauto| |].
        -- rewrite Hwl in Hids. injection Hids as <-. tauto.
        -- right. split; [done|]. by exists wl', ids'.
    + split.
      * intros [?|(? & wl' & ids' & ? & ? & ?)]; [tauto|].
        right. split; [done|]. exists wl', ids'. split; [by right | done].
      * intros [?|(? & wl' & ids' & [->|?]%elem_of_cons & Hids & ?)]; [tauto| |].
        -- congruence.
        -- right. split; [done|]. by exists wl', ids'.
Qed.

Lemma sql_delete_loop_lookup (shared_ids : gset string) (imdb_ids : list string) i :
  ∀ w,
    film_cache
      (foldl (λ w imdb_id,
                if bool_decide (imdb_id ∈ shared_ids) then w
                else sql_delete imdb_id w) w imdb_ids) !! i
    = if bool_decide (i ∈ imdb_ids ∧ i ∉ shared_ids) then None
      else film_cache w !! i.
Proof.
  induction imdb_ids as [|j ids IH]; intros w; cbn [foldl].
  - rewrite bool_decide_eq_false_2; [done|]. by intros [?%elem_of_nil _].
  - rewrite IH. clear IH. destruct (decide (j ∈ shared_ids)) as [Hj|Hj].
    + rewrite (bool_decide_eq_true_2 (j ∈ shared_ids) Hj).
      rewrite (bool_decide_ext (i ∈ j :: ids ∧ i ∉ shared_ids)
                 (i ∈ ids ∧ i ∉ shared_ids)); [done|].
      rewrite elem_of_cons. split; [|tauto].
      intros [[Heq|?] ?]; [by subst | done].
    + rewrite (bool_decide_eq_false_2 (j ∈ shared_ids) Hj). simpl.
      destruct (decide (i = j)) as [->|Hne].
      * rewrite lookup_delete_eq.
        rewrite (bool_decide_eq_true_2 (j ∈ j :: ids ∧ j ∉ shared_ids));
          [by destruct (bool_decide _) | split; [by left | done]].
      * rewrite lookup_delete_ne by done.
        rewrite (bool_decide_ext (i ∈ j :: ids ∧ i ∉ shared_ids)
                   (i ∈ ids ∧ i ∉ shared_ids)); [done|].
        rewrite elem_of_cons. split; [|tauto].
        intros [[Heq|?] ?]; [by subst | done].
Qed.

(** What [delete_file] leaves in the cache store: the record of an
    identifier goes exactly when the deleted file lists it and it is not
    among the shared identifiers. *)
Lemma delete_file_film_cache filename w i :
  let imdb_ids := default [] (try_imdb_ids filename w) in
  film_cache (delete_file filename w) !! i
  = if bool_decide (i ∈ imdb_ids ∧ i ∉ ids_in_other_lists filename imdb_ids w)
    then None else film_cache w !! i.
Proof.
  intros imdb_ids. unfold delete_file. fold imdb_ids.
  by rewrite sql_delete_loop_lookup.
Qed.

(** Deleting a watchlist keeps the record of every identifier that another
    [.csv] file of the folder lists, and removes the record of every
    identifier that it lists and no such file does. *)
Lemma delete_file_keeps_shared filename w wl other_ids i :
  wl ≠ filename →
  PyStr.endswith ".csv" wl = true →
  try_imdb_ids wl w = Some other_ids →
  i ∈ other_ids →
  film_cache (delete_file filename w) !! i = film_cache w !! i.
Proof.
  intros Hne Hcsv Hwl Hi. rewrite delete_file_film_cache.
  rewrite bool_decide_eq_false_2; [done|]. intros [Hin Hshared].
  apply Hshared, elem_of_ids_in_other_lists. split; [done|].
  exists wl, other_ids. split; [|done].
  apply elem_of_other_watchlists. split; [|done].
  unfold try_imdb_ids in Hwl. by destruct (uploads w !! wl).
Qed.

(** Deleting a watchlist whose identifiers are all in one such file removes
    no record. *)
Lemma delete_file_subset_keeps_all filename w wl ids other_ids :
  wl ≠ filename →
  PyStr.endswith ".csv" wl = true →
  try_imdb_ids filename w = Some ids →
  try_imdb_ids wl w = Some other_ids →
  ids ⊆ other_ids →
  film_cache (delete_file filename w) = film_cache w.
Proof.
  intros Hne Hcsv Hids Hwl Hsub. apply map_eq. intros i.
  destruct (decide (i ∈ ids)) as [Hi|Hi].
  - eapply delete_file_keeps_shared; eauto.
  - rewrite delete_file_film_cache, Hids. simpl.
    rewrite bool_decide_eq_false_2; [done | tauto].
Qed.

Lemma delete_file_removes_last filename w ids i :
  try_imdb_ids filename w = Some ids →
  i ∈ ids →
  (∀ wl other_ids,
     wl ≠ filename → try_imdb_ids wl w = Some other_ids → i ∉ other_ids) →
  film_cache (delete_file filename w) !! i = None.
Proof.
  intros Hids Hi Hlast. rewrite delete_file_film_cache, Hids. simpl.
  rewrite bool_decide_eq_true_2; [done|]. split; [done|].
  rewrite elem_of_ids_in_other_lists.
  intros (_ & wl & other_ids & Hwl & Hother & Hin).
  apply elem_of_other_watchlists in Hwl as (_ & _ & Hne).
  by eapply Hlast.
Qed.

End AppProperties.

(** ** The parser *)


Section ParserProperties.
Context {pyfloat : Type}.
Variable py_int : string → option Z.
Variable py_float : string → option pyfloat.

Local Abbreviation film_of_row := (film_of_row py_int py_float).


Lemma get_strip_complete row key :
  complete_row row → key ∈ text_keys → get_strip row key = inr (field row key).
Proof.
  intros Hrow Hkey. specialize (Hrow key Hkey). unfold get_strip, field.
  by destruct (row !! key) as [[v|]|].
Qed.

Lemma parse_row_complete row :
  complete_row row → parse_row py_int py_float row = inr (film_of_row row).
Proof.
  intros Hrow. unfold parse_row, film_of_row.
  rewrite !(get_strip_complete row) by (done || (unfold text_keys; set_solver)).
  by destruct (PyStr.truthy (field row "Const")).
Qed.

(** A numeric column that does not parse, or that the row lacks, gives
    [None] and nothing else changes. *)
Lemma try_field_failure {A} (conv : string → option A) row key :
  (∀ v, row !! key = Some (Some v) → conv (PyStr.strip v) = None) →
  (row !! key = None → conv (PyStr.strip "") = None) →
  try_field conv row key = None.
Proof.
  intros Hconv Hempty. unfold try_field, get_strip.
  destruct (row !! key) as [[v|]|]; auto.
Qed.

Lemma parse_rows_complete rows :
  ∀ films,
    Forall complete_row rows →
    parse_rows py_int py_float rows films = inr (films ++ omap film_of_row rows).
Proof.
  induction rows as [|row rows IH]; intros films Hrows; simpl.
  - by rewrite app_nil_r.
  - apply Forall_cons in Hrows as [Hrow Hrows].
    rewrite parse_row_complete by done.
    destruct (film_of_row row) as [f|]; rewrite IH by done; [|done].
    by rewrite <- app_assoc.
Qed.

(** On a table whose rows are all complete the parser returns, in the order
    of the rows, the entry of every row that has an identifier. *)
Lemma parse_imdb_csv_complete t :
  Forall complete_row (DictReader t) →
  parse_imdb_csv py_int py_float t = inr (omap film_of_row (DictReader t)).
Proof.
  intros Hrows. unfold parse_imdb_csv. by rewrite parse_rows_complete.
Qed.

(** A row with as many fields as the header is complete. *)
Lemma dict_of_row_complete (fieldnames : list string) :
  ∀ (row : csv_row) d,
    (List.length fieldnames ≤ List.length row)%nat →
    (∀ key, d !! key ≠ Some None) →
    ∀ key, dict_of_row fieldnames row d !! key ≠ Some None.
Proof.
  induction fieldnames as [|k ks IH]; intros row d Hlen Hd key; simpl; [done|].
  destruct row as [|v vs]; simpl in Hlen; [lia|].
  apply IH; [lia|]. intros key'.
  destruct (decide (k = key')) as [->|Hne];
    [by rewrite lookup_insert_eq | by rewrite lookup_insert_ne].
Qed.

Lemma DictReader_complete (fieldnames : list string) (rows : list csv_row) :
  Forall (λ row : csv_row,
            row = [] ∨ (List.length fieldnames ≤ List.length row)%nat) rows →
  Forall complete_row (DictReader (fieldnames :: rows)).
Proof.
  intros Hrows. unfold DictReader. rewrite Forall_fmap.
  apply Forall_forall. intros row [Hne Hin]%list_elem_of_filter.
  rewrite Forall_forall in Hrows. destruct (Hrows row Hin) as [?|Hlen]; [done|].
  intros key _. by apply dict_of_row_complete.
Qed.

(** C8 fails on a row that is shorter than the header: [csv.DictReader]
    gives [None] to the columns that the row lacks, and [None] has no
    [strip].  A row without its identifier column is not dropped and a
    row with an identifier but without its title column is not kept: the
    parser raises and returns no list at all. *)
Theorem parse_imdb_csv_short_row_raises :
  parse_imdb_csv py_int py_float
    [["Position"; "Const"; "Title"];
     ["1"; "tt0111161"; "The Shawshank Redemption"];
     ["2"]]
  = inl AttributeError
  ∧ parse_imdb_csv py_int py_float
      [["Const"; "Title"]; ["tt0111161"]]
    = inl AttributeError
  ∧ film_imdb_id <$>
      default [] (match parse_imdb_csv py_int py_float
                          [["Position"; "Const"; "Title"];
                           ["1"; "tt0111161"; "The Shawshank Redemption"];
                           ["2"; ""; "Untitled"]]
                  with inr films => Some films | inl _ => None end)
    = ["tt0111161"].
Proof. vm_compute. repeat split. Qed.

End ParserProperties.

(** ** Reconciliation at concrete states *)


Section Reconciliation.
Context {pyfloat : Type}.
Variable py_int : string → option Z.
Variable py_float : string → option pyfloat.
Variable tmdb_find : string → find_response.
Variable tmdb_watch : string → Z → json.

(** On a new upload, [process] leaves the record of every identifier that
    the new content does not list as it was. *)
Lemma process_upload_film_cache today_str req w csv_filename content films i :
  file_upload req = Some (csv_filename, content) →
  is_new_upload_selected req = true →
  parse_imdb_csv py_int py_float content = inr films →
  i ∉ film_imdb_id <$> films →
  film_cache (process py_int py_float tmdb_find tmdb_watch today_str req w).2 !! i
  = film_cache w !! i.
Proof.
  intros Hupload Hnew Hparse Hi.
  rewrite (process_upload_run py_int py_float tmdb_find tmdb_watch today_str
             req w csv_filename content films) by done.
  destruct (match uploads w !! csv_filename with Some _ => _ | None => _ end)
    as [old_imdb_ids ids_in_other].
  cbv zeta.
  destruct (remove_old_cache_files_frame old_imdb_ids
              (list_to_set (film_imdb_id <$> films)) ids_in_other
              (set_uploads (insert csv_filename content) w)) as (Hfc & _).
  destruct (build_results_frame tmdb_find tmdb_watch films (requested_regions req)
              (list_to_set (requested_regions req)) ∅ today_str
              (remove_old_cache_files old_imdb_ids
                 (list_to_set (film_imdb_id <$> films)) ids_in_other
                 (set_uploads (insert csv_filename content) w)))
    as (results & w1 & new & -> & _ & _ & _ & _ & _ & _ & Hother & _).
  simpl. rewrite Hother by done. by rewrite Hfc.
Qed.

Lemma process_upload_cache_dir today_str req w csv_filename content films :
  file_upload req = Some (csv_filename, content) →
  is_new_upload_selected req = true →
  parse_imdb_csv py_int py_float content = inr films →
  cache_dir (process py_int py_float tmdb_find tmdb_watch today_str req w).2
  = cache_dir
      (let '(old_imdb_ids, ids_in_other) :=
         match uploads w !! csv_filename with
         | Some _ =>
             let old_imdb_ids :=
               default [] (try_imdb_ids py_int py_float csv_filename w) in
             (old_imdb_ids,
              ids_in_other_lists py_int py_float csv_filename old_imdb_ids w)
         | None => ([], ∅)
         end in
       remove_old_cache_files old_imdb_ids
         (list_to_set (film_imdb_id <$> films)) ids_in_other
         (set_uploads (insert csv_filename content) w)).
Proof.
  intros Hupload Hnew Hparse.
  rewrite (process_upload_run py_int py_float tmdb_find tmdb_watch today_str
             req w csv_filename content films) by done.
  destruct (match uploads w !! csv_filename with Some _ => _ | None => _ end)
    as [old_imdb_ids ids_in_other].
  cbv zeta.
  destruct (build_results_frame tmdb_find tmdb_watch films (requested_regions req)
              (list_to_set (requested_regions req)) ∅ today_str
              (remove_old_cache_files old_imdb_ids
                 (list_to_set (film_imdb_id <$> films)) ids_in_other
                 (set_uploads (insert csv_filename content) w)))
    as (results & w1 & new & -> & _ & _ & _ & Hcd & _).
  simpl. by rewrite Hcd.
Qed.

(** C2 fails on the code: the overwrite branch removes the per-film cache
    file [cache/<id>.json] of an identifier that left the watchlist and is
    in no other, and leaves its record in the cache store.  Here the old
    content lists one film, the new content another, and there is no other
    watchlist: the record of the old film is still there after
    [process]. *)
Theorem process_overwrite_keeps_orphan_record (today_str : string) :
  let w' := (process py_int py_float tmdb_find tmdb_watch today_str
               overwrite_request one_list_world).2 in
  try_imdb_ids py_int py_float "w.csv" one_list_world = Some ["tt0111161"]
  ∧ (∃ films,
       parse_imdb_csv py_int py_float [["Const"]; ["tt0068646"]] = inr films
       ∧ film_imdb_id <$> films = ["tt0068646"])
  ∧ other_watchlists "w.csv" one_list_world = []
  ∧ film_cache w' !! "tt0111161" = film_cache one_list_world !! "tt0111161"
  ∧ film_cache one_list_world !! "tt0111161" = Some (FcRow (Some 278%Z) (Some ∅))
  ∧ "tt0111161" ∈ cache_dir one_list_world
  ∧ "tt0111161" ∉ cache_dir w'.
Proof.
  intros w'. split; [by vm_compute|].
  split; [|split; [by vm_compute|split; [|split; [|split]]]].
  - eexists. split; [by vm_compute | by vm_compute].
  - unfold w'.
    eapply (process_upload_film_cache today_str overwrite_request one_list_world
              "w.csv" [["Const"]; ["tt0068646"]]).
    + reflexivity.
    + by vm_compute.
    + by vm_compute.
    + apply (bool_decide_eq_false_1 _). by vm_compute.
  - by vm_compute.
  - apply (bool_decide_unpack _). by vm_compute.
  - unfold w'.
    assert (∃ films,
              parse_imdb_csv py_int py_float [["Const"]; ["tt0068646"]] = inr films
              ∧ film_imdb_id <$> films = ["tt0068646"])
      as (films & Hparse & Hids) by (eexists; split; by vm_compute).
    rewrite (process_upload_cache_dir today_str overwrite_request one_list_world
               "w.csv" [["Const"]; ["tt0068646"]] films);
      [| reflexivity | by vm_compute | exact Hparse].
    rewrite Hids. apply (bool_decide_eq_false_1 _). by vm_compute.
Qed.

(** C3 fails on the code: [delete_file] counts as other watchlists the
    files whose names end in [.csv], in lower case.  Here [A.csv] lists one
    of the two films of [B.CSV]; deleting [A.csv] removes the record of
    that film, which [B.CSV], still in the folder, lists. *)
Theorem delete_file_ignores_upper_case_extension :
  let w' := delete_file py_int py_float "A.csv" two_lists_world in
  try_imdb_ids py_int py_float "A.csv" two_lists_world = Some ["tt0111161"]
  ∧ try_imdb_ids py_int py_float "B.CSV" two_lists_world
    = Some ["tt0111161"; "tt0068646"]
  ∧ try_imdb_ids py_int py_float "B.CSV" w' = Some ["tt0111161"; "tt0068646"]
  ∧ is_Some (film_cache two_lists_world !! "tt0111161")
  ∧ film_cache w' !! "tt0111161" = None.
Proof.
  intros w'. repeat split; try by vm_compute.
  vm_compute. eauto.
Qed.

End Reconciliation.

(** ** Worked runs *)

(** The scenario of the specification: GB, dated today, is answered from the
    cache and stays; US is looked up and stored in the structured form. *)
Example scenario_fresh_run :
  let run := get_providers_fresh sample_find sample_watch "tt0111161" "movie"
               ["GB"; "US"] scenario_today scenario_world in
  res_providers run.1 !! "GB" = Some (JList [JStr "Netflix"])
  ∧ res_providers run.1 !! "US" = Some (JList [JStr "Netflix"; JStr "MUBI"])
  ∧ calls run.2 = [WatchCall 278 "movie" "US"]
  ∧ cached_entry "tt0111161" "GB" run.2
    = Some (structured_entry scenario_today [JStr "Netflix"])
  ∧ cached_entry "tt0111161" "US" run.2
    = Some (structured_entry scenario_today [JStr "Netflix"; JStr "MUBI"])
  ∧ cached_entry "tt0111161" "FR" run.2 = Some (JList [JStr "Canal+"]).
Proof. vm_compute. repeat split. Qed.

Lemma get_providers_fresh_cache_hit_witness :
  ("GB" ∈ ["GB"; "US"]
   ∧ cached_entry "tt0111161" "GB" scenario_world
     = Some (structured_entry scenario_today [JStr "Netflix"]))
  ∧ ∃ res w' new,
      get_providers_fresh sample_find sample_watch "tt0111161" "movie"
        ["GB"; "US"] scenario_today scenario_world = (res, w')
      ∧ res_providers res !! "GB"
        = Some (_extract_entry (structured_entry scenario_today [JStr "Netflix"])).2
      ∧ calls w' = calls scenario_world ++ new
      ∧ (∀ id media_type, WatchCall id media_type "GB" ∉ new)
      ∧ cached_entry "tt0111161" "GB" w'
        = Some (structured_entry scenario_today [JStr "Netflix"]).
Proof.
  assert ("GB" ∈ ["GB"; "US"]) as Hin by (apply (bool_decide_unpack _); by vm_compute).
  assert (cached_entry "tt0111161" "GB" scenario_world
          = Some (structured_entry scenario_today [JStr "Netflix"])) as Hentry
    by (by vm_compute).
  split; [by split|].
  apply (get_providers_fresh_cache_hit sample_find sample_watch "tt0111161" "movie"
           ["GB"; "US"] scenario_today scenario_world "GB"
           (structured_entry scenario_today [JStr "Netflix"]) Hin Hentry).
  by vm_compute.
Defined.

Lemma get_providers_cached_defaults_witness :
  film_cache scenario_world !! "tt0068646" = None
  ∧ res_tmdb_id (get_providers_cached "tt0068646" ["GB"; "US"] scenario_world).1
    = None
  ∧ res_providers (get_providers_cached "tt0111161" ["GB"; "US"] scenario_world).1
      !! "US" = Some (JList []).
Proof.
  assert (film_cache scenario_world !! "tt0068646" = None) as Habsent
    by (by vm_compute).
  split; [exact Habsent|]. split.
  - destruct (get_providers_cached_defaults "tt0068646" ["GB"; "US"] scenario_world)
      as (H & _ & _).
    destruct (H Habsent) as [Hid _]. exact Hid.
  - destruct (get_providers_cached_defaults "tt0111161" ["GB"; "US"] scenario_world)
      as (_ & H & _).
    apply H.
    + apply (bool_decide_unpack _). by vm_compute.
    + by vm_compute.
Defined.

Lemma cache_entries_migrate_one_way_witness :
  cached_entry "tt0111161" "FR" scenario_world = Some (JList [JStr "Canal+"])
  ∧ ∃ res w' names,
      get_providers_fresh sample_find sample_watch "tt0111161" "movie"
        ["FR"] scenario_today scenario_world = (res, w')
      ∧ cached_entry "tt0111161" "FR" w'
        = Some (structured_entry scenario_today names)
      ∧ res_providers res !! "FR" = Some (JList names).
Proof.
  split; [by vm_compute|].
  destruct (cache_entries_migrate_one_way sample_find sample_watch)
    as (_ & _ & _ & H).
  destruct (H "tt0111161" "movie" ["FR"] scenario_today scenario_world "FR")
    as (res & w' & Hrun & _ & Hstale).
  { apply (bool_decide_unpack _). by vm_compute. }
  destruct Hstale as (names & Hentry & Hres); [by vm_compute|].
  by exists res, w', names.
Defined.

Lemma process_refresh_policy_witness :
  ∃ results w',
    process sample_int sample_float sample_find sample_watch scenario_today
      scenario_request scenario_world
    = (Rendered results ["GB"; "US"] "w.csv", w')
    ∧ meta_regions (load_watchlist_meta "w.csv" w') !! "US"
      = Some (JStr scenario_today)
    ∧ meta_regions (load_watchlist_meta "w.csv" w') !! "GB"
      = Some (JStr "2025-01-10").
Proof.
  destruct (process_refresh_policy sample_int sample_float sample_find sample_watch
              scenario_today scenario_request scenario_world) as (_ & _ & H & _).
  pose (t := [["Const"; "Title"; "Title Type"];
              ["tt0111161"; "The Shawshank Redemption"; "movie"]] : csv_table).
  assert (∃ films, parse_imdb_csv sample_int sample_float t = inr films)
    as [films Hparse] by (eexists; by vm_compute).
  assert (selected_name scenario_request ≠ "") as Hname by (by vm_compute).
  assert (uploads scenario_world !! selected_name scenario_request = Some t)
    as Hfile by (by vm_compute).
  specialize (H t films eq_refl Hname Hfile Hparse). cbv zeta in H.
  pose proof (refresh_decision_existing
                (default "auto" (form_refresh_mode scenario_request))
                (meta_regions (load_watchlist_meta
                                 (selected_name scenario_request) scenario_world))
                (requested_regions scenario_request)) as Hdec.
  destruct (refresh_decision false _ _ _) as [rr cr].
  destruct Hdec as [Hr _].
  destruct H as (results & w' & new & Hrun & _ & _ & _ & _ & Hrefreshed & Hkept).
  exists results, w'. split; [exact Hrun|]. split.
  - apply Hrefreshed, Hr. split.
    + apply (bool_decide_unpack _). by vm_compute.
    + left. by vm_compute.
  - change "w.csv" with (selected_name scenario_request). rewrite Hkept.
    + by vm_compute.
    + rewrite Hr. intros (_ & [Hrec|Hmode]); [by vm_compute in Hrec|].
      by vm_compute in Hmode.
Defined.
